(** * LC-3 virtual machine (lc3.c): shallow embedding and verified properties

    Words are [uint16_t] values, modelled as integers in [0, 2^16) with
    every conversion to [uint16_t] written out as [u16].  The arrays
    [reg] and [memory] are total maps on [Z]; every index the program uses
    is reduced to the array's range before use.  The C library (terminal
    input and output) is an abstract host threaded through the state. *)

From Stdlib Require Import ZArith List Bool Lia String Ascii.
Import ListNotations.
Local Open Scope Z_scope.

(** ** Constants of lc3.c *)

Definition MR_KBSR : Z := 0xFE00.
Definition MR_KBDR : Z := 0xFE02.

Definition R_R0 : Z := 0.
Definition R_R1 : Z := 1.
Definition R_R2 : Z := 2.
Definition R_R3 : Z := 3.
Definition R_R4 : Z := 4.
Definition R_R5 : Z := 5.
Definition R_R6 : Z := 6.
Definition R_R7 : Z := 7.
Definition R_PC : Z := 8.
Definition R_COND : Z := 9.
Definition R_COUNT : Z := 10.

Definition FL_POS : Z := Z.shiftl 1 0.
Definition FL_ZRO : Z := Z.shiftl 1 1.
Definition FL_NEG : Z := Z.shiftl 1 2.

Definition OP_BR : Z := 0.
Definition OP_ADD : Z := 1.
Definition OP_LD : Z := 2.
Definition OP_ST : Z := 3.
Definition OP_JSR : Z := 4.
Definition OP_AND : Z := 5.
Definition OP_LDR : Z := 6.
Definition OP_STR : Z := 7.
Definition OP_RTI : Z := 8.
Definition OP_NOT : Z := 9.
Definition OP_LDI : Z := 10.
Definition OP_STI : Z := 11.
Definition OP_JMP : Z := 12.
Definition OP_RES : Z := 13.
Definition OP_LEA : Z := 14.
Definition OP_TRAP : Z := 15.

Definition TRAP_GETC : Z := 0x20.
Definition TRAP_OUT : Z := 0x21.
Definition TRAP_PUTS : Z := 0x22.
Definition TRAP_IN : Z := 0x23.
Definition TRAP_PUTSP : Z := 0x24.
Definition TRAP_HALT : Z := 0x25.

Definition MEMORY_MAX : Z := Z.shiftl 1 16.
Definition PC_START : Z := 0x3000.

(** ** Integer conversions of C *)

(** Conversion to [uint16_t]. *)
Definition u16 (z : Z) : Z := z mod 65536.

(** Conversion of an [int] to [char] (signed on the Unix targets of lc3.c). *)
Definition to_char (z : Z) : Z := (z + 128) mod 256 - 128.

(** The byte [putc] writes for its [int] argument ([unsigned char]). *)
Definition to_uchar (z : Z) : Z := z mod 256.

(** Total map update, for [reg[i] = v] and [memory[a] = v]. *)
Definition upd (f : Z -> Z) (i v : Z) : Z -> Z :=
  fun j => if j =? i then v else f j.

(** ** Pure helpers *)

(** [sign_extend] of lc3.c, lines 150-160. *)
Definition sign_extend (x : Z) (bit_count : Z) : Z :=
  if negb (Z.land (Z.shiftr x (bit_count - 1)) 1 =? 0)
  then u16 (Z.lor x (Z.shiftl 0xFFFF bit_count))
  else x.

(** The draft main.c has its own [sign_extend], lines 92-102: the
    statement in the branch is the comparison [x != (0xFFFF << bit_count)],
    whose value is discarded, so [x] is returned as it came. *)
Module MainC.

Definition sign_extend (x : Z) (bit_count : Z) : Z :=
  if negb (Z.land (Z.shiftr x (bit_count - 1)) 1 =? 0)
  then let _ := negb (x =? Z.shiftl 0xFFFF bit_count) in x
  else x.

End MainC.

(** [swap16] of lc3.c, lines 163-165. *)
Definition swap16 (x : Z) : Z :=
  u16 (Z.lor (Z.shiftl x 8) (Z.shiftr x 8)).

(** ** The host: the part of the C library the interpreter calls *)

Class Host (W : Type) : Type := {
  (** [check_key()]: a zero-timeout [select] on standard input. *)
  check_key : W -> bool * W;
  (** [getchar()]: the next byte, or [EOF] (-1). *)
  getchar : W -> Z * W;
  (** [putc(c, stdout)], given the byte written. *)
  putc : Z -> W -> W;
  (** [fflush(stdout)]. *)
  fflush : W -> W
}.

(** ** Machine state *)

Record state (W : Type) : Type := mkState {
  reg : Z -> Z;
  memory : Z -> Z;
  running : bool;
  world : W
}.

Arguments mkState {W} _ _ _ _.
Arguments reg {W} _ _.
Arguments memory {W} _ _.
Arguments running {W} _.
Arguments world {W} _.

(** The result of one turn of the interpreter loop: either the loop goes on
    with a new state, or [abort()] was called. *)
Inductive result (W : Type) : Type :=
| Ok (s : state W)
| Aborted.

Arguments Ok {W} _.
Arguments Aborted {W}.

Section Machine.

Context {W : Type} {HostW : Host W}.

Definition set_reg (r v : Z) (s : state W) : state W :=
  mkState (upd (reg s) r (u16 v)) (memory s) (running s) (world s).

Definition set_mem (a v : Z) (s : state W) : state W :=
  mkState (reg s) (upd (memory s) a (u16 v)) (running s) (world s).

Definition set_world (w : W) (s : state W) : state W :=
  mkState (reg s) (memory s) (running s) w.

Definition set_running (b : bool) (s : state W) : state W :=
  mkState (reg s) (memory s) b (world s).

(** [update_flags], lines 140-148. *)
Definition update_flags (r : Z) (s : state W) : state W :=
  if reg s r =? 0 then set_reg R_COND FL_ZRO s
  else if negb (Z.shiftr (reg s r) 15 =? 0) then set_reg R_COND FL_NEG s
  else set_reg R_COND FL_POS s.

(** [mem_write], lines 193-195; the parameters are [uint16_t]. *)
Definition mem_write (address data : Z) (s : state W) : state W :=
  set_mem (u16 address) data s.

(** [mem_read], lines 197-207. *)
Definition mem_read (address : Z) (s : state W) : Z * state W :=
  let address := u16 address in
  let s :=
    if address =? MR_KBSR then
      let (key, w) := check_key (world s) in
      if key then
        let s := set_mem MR_KBSR (Z.shiftl 1 15) (set_world w s) in
        let (c, w) := getchar (world s) in
        set_mem MR_KBDR c (set_world w s)
      else set_mem MR_KBSR 0 (set_world w s)
    else s in
  (memory s address, s).

(** ** Instruction fields *)

Definition opcode (instr : Z) : Z := Z.shiftr instr 12.
Definition bits_11_9 (instr : Z) : Z := Z.land (Z.shiftr instr 9) 0x7.
Definition bits_8_6 (instr : Z) : Z := Z.land (Z.shiftr instr 6) 0x7.
Definition bit_5 (instr : Z) : Z := Z.land (Z.shiftr instr 5) 0x1.
Definition bit_11 (instr : Z) : Z := Z.land (Z.shiftr instr 11) 0x1.

(** ** The cases of the [switch] in [main], lines 245-451 *)

Definition op_add (instr : Z) (s : state W) : state W :=
  let r0 := bits_11_9 instr in
  let r1 := bits_8_6 instr in
  let imm_flag := bit_5 instr in
  let s :=
    if negb (imm_flag =? 0) then
      let imme := sign_extend (Z.land instr 0x1F) 5 in
      set_reg r0 (reg s r1 + imme) s
    else
      let r2 := Z.land instr 0x7 in
      set_reg r0 (reg s r1 + reg s r2) s in
  update_flags r0 s.

Definition op_and (instr : Z) (s : state W) : state W :=
  let r0 := bits_11_9 instr in
  let r1 := bits_8_6 instr in
  let imm_flag := bit_5 instr in
  let s :=
    if negb (imm_flag =? 0) then
      let imme := sign_extend (Z.land instr 0x1F) 5 in
      set_reg r0 (Z.land (reg s r1) imme) s
    else
      let r2 := Z.land instr 0x7 in
      set_reg r0 (Z.land (reg s r1) (reg s r2)) s in
  update_flags r0 s.

Definition op_not (instr : Z) (s : state W) : state W :=
  let r0 := bits_11_9 instr in
  let r1 := bits_8_6 instr in
  update_flags r0 (set_reg r0 (Z.lnot (reg s r1)) s).

Definition op_br (instr : Z) (s : state W) : state W :=
  let pc_offset := sign_extend (Z.land instr 0x1FF) 9 in
  let cond_flag := bits_11_9 instr in
  if negb (Z.land cond_flag (reg s R_COND) =? 0)
  then set_reg R_PC (reg s R_PC + pc_offset) s
  else s.

Definition op_jmp (instr : Z) (s : state W) : state W :=
  let r1 := bits_8_6 instr in
  set_reg R_PC (reg s r1) s.

Definition op_jsr (instr : Z) (s : state W) : state W :=
  let bit11 := bit_11 instr in
  let s := set_reg R_R7 (reg s R_PC) s in
  if bit11 =? 0 then
    let r1 := bits_8_6 instr in
    set_reg R_PC (reg s r1) s
  else
    let pc_offset := sign_extend (Z.land instr 0x7FF) 11 in
    set_reg R_PC (reg s R_PC + pc_offset) s.

Definition op_ld (instr : Z) (s : state W) : state W :=
  let r0 := bits_11_9 instr in
  let pc_offset := sign_extend (Z.land instr 0x1FF) 9 in
  let (v, s) := mem_read (reg s R_PC + pc_offset) s in
  update_flags r0 (set_reg r0 v s).

Definition op_ldi (instr : Z) (s : state W) : state W :=
  let r0 := bits_11_9 instr in
  let pc_offset := sign_extend (Z.land instr 0x1FF) 9 in
  let (a, s) := mem_read (reg s R_PC + pc_offset) s in
  let (v, s) := mem_read a s in
  update_flags r0 (set_reg r0 v s).

Definition op_ldr (instr : Z) (s : state W) : state W :=
  let r0 := bits_11_9 instr in
  let r1 := bits_8_6 instr in
  let pc_offset := sign_extend (Z.land instr 0x3F) 6 in
  let (v, s) := mem_read (reg s r1 + pc_offset) s in
  update_flags r0 (set_reg r0 v s).

Definition op_lea (instr : Z) (s : state W) : state W :=
  let r0 := bits_11_9 instr in
  let pc_offset := sign_extend (Z.land instr 0x1FF) 9 in
  update_flags r0 (set_reg r0 (reg s R_PC + pc_offset) s).

Definition op_st (instr : Z) (s : state W) : state W :=
  let r1 := bits_11_9 instr in
  let pc_offset := sign_extend (Z.land instr 0x1FF) 9 in
  mem_write (reg s R_PC + pc_offset) (reg s r1) s.

Definition op_sti (instr : Z) (s : state W) : state W :=
  let r1 := bits_11_9 instr in
  let pc_offset := sign_extend (Z.land instr 0x1FF) 9 in
  let (a, s) := mem_read (reg s R_PC + pc_offset) s in
  mem_write a (reg s r1) s.

Definition op_str (instr : Z) (s : state W) : state W :=
  let r1 := bits_11_9 instr in
  let r2 := bits_8_6 instr in
  let pc_offset := sign_extend (Z.land instr 0x3F) 6 in
  mem_write (reg s r2 + pc_offset) (reg s r1) s.

(** *** Trap routines, lines 385-444 *)

Definition bytes_of_string (str : string) : list Z :=
  map (fun a => Z.of_N (N_of_ascii a)) (list_ascii_of_string str).

(** [printf] of a string without conversions. *)
Definition put_string (str : string) (w : W) : W :=
  fold_left (fun w b => putc b w) (bytes_of_string str) w.

(** The loop of [TRAP_PUTS], from the word at [c].  The array ends at
    [MEMORY_MAX]; the fuel is the number of words left before that end (the
    C loop reads beyond the array when no zero word comes first). *)
Fixpoint puts_loop (fuel : nat) (mem : Z -> Z) (c : Z) (w : W) : W :=
  match fuel with
  | O => w
  | S fuel =>
      if mem c =? 0 then w
      else puts_loop fuel mem (c + 1) (putc (to_uchar (to_char (mem c))) w)
  end.

(** The loop of [TRAP_PUTSP], bounded in the same way. *)
Fixpoint putsp_loop (fuel : nat) (mem : Z -> Z) (c : Z) (w : W) : W :=
  match fuel with
  | O => w
  | S fuel =>
      if mem c =? 0 then w
      else
        let char1 := to_char (Z.land (mem c) 0xFF) in
        let w := putc (to_uchar char1) w in
        let char2 := to_char (Z.shiftr (mem c) 8) in
        let w := if negb (char2 =? 0) then putc (to_uchar char2) w else w in
        putsp_loop fuel mem (c + 1) w
  end.

Definition op_trap (instr : Z) (s : state W) : state W :=
  let s := set_reg R_R7 (reg s R_PC) s in
  let code := Z.land instr 0xFF in
  if code =? TRAP_GETC then
    let (c, w) := getchar (world s) in
    update_flags R_R0 (set_reg R_R0 c (set_world w s))
  else if code =? TRAP_OUT then
    set_world (fflush (putc (to_uchar (to_char (reg s R_R0))) (world s))) s
  else if code =? TRAP_PUTS then
    let fuel := Z.to_nat (MEMORY_MAX - reg s R_R0) in
    set_world (fflush (puts_loop fuel (memory s) (reg s R_R0) (world s))) s
  else if code =? TRAP_IN then
    let w := put_string "Enter a character: " (world s) in
    let (g, w) := getchar w in
    let c := to_char g in
    let w := fflush (putc (to_uchar c) w) in
    update_flags R_R0 (set_reg R_R0 c (set_world w s))
  else if code =? TRAP_PUTSP then
    let fuel := Z.to_nat (MEMORY_MAX - reg s R_R0) in
    set_world (fflush (putsp_loop fuel (memory s) (reg s R_R0) (world s))) s
  else if code =? TRAP_HALT then
    let w := putc 10 (put_string "HALT" (world s)) in
    set_running false (set_world (fflush w) s)
  else s.

(** ** Fetch, decode, execute: one turn of the loop, lines 240-453 *)

(** [instr = mem_read(reg[R_PC]++)]: the address read is the old [PC]. *)
Definition fetch (s : state W) : Z * state W :=
  let pc := reg s R_PC in
  mem_read pc (set_reg R_PC (pc + 1) s).

Definition execute (instr : Z) (s : state W) : result W :=
  let op := opcode instr in
  if op =? OP_ADD then Ok (op_add instr s)
  else if op =? OP_AND then Ok (op_and instr s)
  else if op =? OP_NOT then Ok (op_not instr s)
  else if op =? OP_BR then Ok (op_br instr s)
  else if op =? OP_JMP then Ok (op_jmp instr s)
  else if op =? OP_JSR then Ok (op_jsr instr s)
  else if op =? OP_LD then Ok (op_ld instr s)
  else if op =? OP_LDI then Ok (op_ldi instr s)
  else if op =? OP_LDR then Ok (op_ldr instr s)
  else if op =? OP_LEA then Ok (op_lea instr s)
  else if op =? OP_ST then Ok (op_st instr s)
  else if op =? OP_STI then Ok (op_sti instr s)
  else if op =? OP_STR then Ok (op_str instr s)
  else if op =? OP_TRAP then Ok (op_trap instr s)
  else Aborted.

Definition step (s : state W) : result W :=
  let (instr, s) := fetch s in
  execute instr s.

(** ** The process: how [main] ends *)

Inductive termination : Type :=
| Exited (code : Z)
| Signaled (sig : Z).

Definition SIGABRT : Z := 6.

(** The status a POSIX shell reports for an ended process. *)
Definition process_status (t : termination) : Z :=
  match t with
  | Exited code => code mod 256
  | Signaled sig => 128 + sig
  end.

(** [while (running) { ... }] followed by the end of [main] (which returns
    0); [None] when the fuel runs out before the loop ends. *)
Fixpoint main_loop (fuel : nat) (s : state W) : option (termination * state W) :=
  if running s then
    match fuel with
    | O => None
    | S fuel =>
        match step s with
        | Aborted => Some (Signaled SIGABRT, s)
        | Ok s' => main_loop fuel s'
        end
    end
  else Some (Exited 0, s).

(** The state in which the loop is entered, lines 231-239, from the
    memory left by the image loader and the zeroed register array. *)
Definition reset (mem : Z -> Z) (w : W) : state W :=
  set_reg R_PC PC_START (set_reg R_COND FL_ZRO (mkState (fun _ => 0) mem true w)).

End Machine.

(** ** The image loader, lines 163-182 *)

(** A [uint16_t] object as [fread] fills it from two bytes of the file.
    The loader is written for a little-endian host (it swaps every word
    it has read): the byte at the lower address is the low byte. *)
Definition word_of_bytes (b0 b1 : Z) : Z := Z.lor b0 (Z.shiftl b1 8).

Section Loader.

(** ISO C leaves the value of an element that [fread] could read only in
    part indeterminate: [fread_partial old b] stands for what the library
    leaves in an element holding [old] when only the byte [b] remained. *)
Variable fread_partial : Z -> Z -> Z.

(** [fread(p, sizeof(uint16_t), nmemb, file)] on the bytes left in the
    file, with [p = memory + i]: the number of complete elements stored,
    and the array afterwards. *)
Fixpoint fread_u16 (file : list Z) (nmemb : Z) (i : Z) (mem : Z -> Z)
  : Z * (Z -> Z) :=
  if nmemb <=? 0 then (0, mem)
  else
    match file with
    | b0 :: b1 :: rest =>
        let (len, mem) :=
          fread_u16 rest (nmemb - 1) (i + 1) (upd mem i (word_of_bytes b0 b1)) in
        (len + 1, mem)
    | [b0] => (0, upd mem i (fread_partial (mem i) b0))
    | [] => (0, mem)
    end.

(** The loop that swaps, in place, the bytes of each of the [len] words
    read, from the first one on. *)
Fixpoint swap_loop (len : nat) (i : Z) (mem : Z -> Z) : Z -> Z :=
  match len with
  | O => mem
  | S len => swap_loop len (i + 1) (upd mem i (swap16 (mem i)))
  end.

(** [read_image_file] on the bytes of the file.  A file of fewer than two
    bytes leaves [origin] uninitialised: no result. *)
Definition read_image_file (file : list Z) (mem : Z -> Z) : option (Z -> Z) :=
  match file with
  | b0 :: b1 :: rest =>
      let origin := swap16 (word_of_bytes b0 b1) in
      let max_read := u16 (MEMORY_MAX - origin) in
      let (len, mem) := fread_u16 rest max_read origin mem in
      Some (swap_loop (Z.to_nat len) origin mem)
  | _ => None
  end.

End Loader.

(** The words of an image after its origin, as the specification reads
    them: bytes two at a time, the first one the high byte; a last odd
    byte is dropped. *)
Fixpoint image_words (bytes : list Z) : list Z :=
  match bytes with
  | b0 :: b1 :: rest => (b0 * 256 + b1) :: image_words rest
  | _ => []
  end.

(** A byte of a file. *)
Definition is_byte (b : Z) : Prop := 0 <= b < 256.

(** The elements [fread] stores for a payload, in host order. *)
Fixpoint raw_words (bytes : list Z) : list Z :=
  match bytes with
  | b0 :: b1 :: rest => word_of_bytes b0 b1 :: raw_words rest
  | _ => []
  end.

(** ** A host for running the model: a queue of typed keys and the bytes
    printed so far *)

Record console : Type := mkConsole {
  keys : list Z;
  printed : list Z
}.

#[export] Instance console_host : Host console := {
  check_key w := (negb (match keys w with [] => true | _ => false end), w);
  getchar w :=
    match keys w with
    | [] => (-1, w)
    | k :: ks => (k, mkConsole ks (printed w))
    end;
  putc b w := mkConsole (keys w) (printed w ++ [b]);
  fflush w := w
}.

(** The machine at reset with one word [instr] at [PC_START]. *)
Definition boot (instr : Z) (ks : list Z) : state console :=
  reset (upd (fun _ => 0) PC_START instr) (mkConsole ks []).

(** ** Notions used to state the properties *)

Section Notions.

Context {W : Type} {HostW : Host W}.

(** [cond] is one of the three flag values: one flag bit, not none and not
    two. *)
Definition one_flag (cond : Z) : Prop :=
  cond = FL_NEG \/ cond = FL_ZRO \/ cond = FL_POS.

(** [cond] is one of the three flag values and is the one that matches the
    sign of the 16-bit word [rd]. *)
Definition flags_agree (cond rd : Z) : Prop :=
  one_flag cond /\
  (cond = FL_ZRO <-> rd = 0) /\
  (cond = FL_NEG <-> Z.testbit rd 15 = true) /\
  (cond = FL_POS <-> rd <> 0 /\ Z.testbit rd 15 = false).

(** The general-purpose register an instruction writes together with the
    flags: the DR field of ADD, AND, NOT, LD, LDI, LDR and LEA, and R0 for
    the traps GETC and IN. *)
Definition written_rd (instr : Z) : option Z :=
  let op := opcode instr in
  if (op =? OP_ADD) || (op =? OP_AND) || (op =? OP_NOT) || (op =? OP_LD)
     || (op =? OP_LDI) || (op =? OP_LDR) || (op =? OP_LEA)
  then Some (bits_11_9 instr)
  else if (op =? OP_TRAP)
          && ((Z.land instr 0xFF =? TRAP_GETC) || (Z.land instr 0xFF =? TRAP_IN))
  then Some R_R0
  else None.

(** Every memory word is a 16-bit value. *)
Definition wf_memory (mem : Z -> Z) : Prop :=
  forall a, 0 <= mem a < 65536.

(** The states the interpreter loop can be in: the reset state over a
    loaded memory, and what a turn of the loop makes of such a state. *)
Inductive reachable : state W -> Prop :=
| reachable_reset (mem : Z -> Z) (w : W) :
    wf_memory mem -> reachable (reset mem w)
| reachable_step (s s' : state W) :
    reachable s -> running s = true -> step s = Ok s' -> reachable s'.

(** The [switch] of the loop as a relation: which case runs for which
    opcode. *)
Inductive exec_case (instr : Z) (s : state W) : result W -> Prop :=
| case_ADD : opcode instr = OP_ADD -> exec_case instr s (Ok (op_add instr s))
| case_AND : opcode instr = OP_AND -> exec_case instr s (Ok (op_and instr s))
| case_NOT : opcode instr = OP_NOT -> exec_case instr s (Ok (op_not instr s))
| case_BR : opcode instr = OP_BR -> exec_case instr s (Ok (op_br instr s))
| case_JMP : opcode instr = OP_JMP -> exec_case instr s (Ok (op_jmp instr s))
| case_JSR : opcode instr = OP_JSR -> exec_case instr s (Ok (op_jsr instr s))
| case_LD : opcode instr = OP_LD -> exec_case instr s (Ok (op_ld instr s))
| case_LDI : opcode instr = OP_LDI -> exec_case instr s (Ok (op_ldi instr s))
| case_LDR : opcode instr = OP_LDR -> exec_case instr s (Ok (op_ldr instr s))
| case_LEA : opcode instr = OP_LEA -> exec_case instr s (Ok (op_lea instr s))
| case_ST : opcode instr = OP_ST -> exec_case instr s (Ok (op_st instr s))
| case_STI : opcode instr = OP_STI -> exec_case instr s (Ok (op_sti instr s))
| case_STR : opcode instr = OP_STR -> exec_case instr s (Ok (op_str instr s))
| case_TRAP : opcode instr = OP_TRAP -> exec_case instr s (Ok (op_trap instr s))
| case_default :
    ~ In (opcode instr)
      [OP_ADD; OP_AND; OP_NOT; OP_BR; OP_JMP; OP_JSR; OP_LD; OP_LDI; OP_LDR;
       OP_LEA; OP_ST; OP_STI; OP_STR; OP_TRAP] ->
    exec_case instr s Aborted.

(** The change of [PC] beyond the fetch increment as the specification
    words it, on the state [s] before the instruction: 0 for the
    operations that are not control transfers, the sign-extended offset for
    a taken BR and a PC-relative JSR, [R[BaseR] - (PC + 1)] for JMP and
    the register form of JSR. *)
Definition Delta_claimed (instr : Z) (s : state W) : Z :=
  let op := opcode instr in
  if op =? OP_BR then
    if negb (Z.land (bits_11_9 instr) (reg s R_COND) =? 0)
    then sign_extend (Z.land instr 0x1FF) 9 else 0
  else if op =? OP_JSR then
    if bit_11 instr =? 0
    then reg s (bits_8_6 instr) - (reg s R_PC + 1)
    else sign_extend (Z.land instr 0x7FF) 11
  else if op =? OP_JMP then reg s (bits_8_6 instr) - (reg s R_PC + 1)
  else 0.

(** The same, except that the register form of JSR reads its base
    register after R7 has received the incremented [PC]: with BaseR = R7
    the change is 0. *)
Definition Delta (instr : Z) (s : state W) : Z :=
  let op := opcode instr in
  if op =? OP_BR then
    if negb (Z.land (bits_11_9 instr) (reg s R_COND) =? 0)
    then sign_extend (Z.land instr 0x1FF) 9 else 0
  else if op =? OP_JSR then
    if bit_11 instr =? 0
    then if bits_8_6 instr =? R_R7 then 0
         else reg s (bits_8_6 instr) - (reg s R_PC + 1)
    else sign_extend (Z.land instr 0x7FF) 11
  else if op =? OP_JMP then reg s (bits_8_6 instr) - (reg s R_PC + 1)
  else 0.

(** The address a store instruction writes, in the state [s] in which it
    executes (the fetch is done, [PC] is incremented); [None] for every
    other instruction. *)
Definition store_target (instr : Z) (s : state W) : option Z :=
  let op := opcode instr in
  if op =? OP_ST then
    Some (u16 (reg s R_PC + sign_extend (Z.land instr 0x1FF) 9))
  else if op =? OP_STI then
    Some (u16 (fst (mem_read (reg s R_PC + sign_extend (Z.land instr 0x1FF) 9) s)))
  else if op =? OP_STR then
    Some (u16 (reg s (bits_8_6 instr) + sign_extend (Z.land instr 0x3F) 6))
  else None.

(** The six trap codes that have a routine. *)
Definition standard_traps : list Z :=
  [TRAP_GETC; TRAP_OUT; TRAP_PUTS; TRAP_IN; TRAP_PUTSP; TRAP_HALT].

End Notions.

(** JSRR R7 at 0x3000, with 0x1234 in R7. *)
Definition jsrr_r7_state : state console :=
  set_reg R_R7 0x1234 (boot 0x41C0 []).

(** ** Further notions *)

(** The number a field of [n] bits stands for in two's complement. *)
Definition signed_field (x n : Z) : Z :=
  if 2 ^ (n - 1) <=? x then x - 2 ^ n else x.

(** The general-purpose registers an instruction may assign: the DR field
    for ADD, AND, NOT and the loads, R7 for JSR and TRAP, and also R0 for
    the traps GETC and IN. *)
Definition assigned_registers (instr : Z) : list Z :=
  let op := opcode instr in
  if (op =? OP_ADD) || (op =? OP_AND) || (op =? OP_NOT) || (op =? OP_LD)
     || (op =? OP_LDI) || (op =? OP_LDR) || (op =? OP_LEA)
  then [bits_11_9 instr]
  else if op =? OP_JSR then [R_R7]
  else if op =? OP_TRAP then
    if (Z.land instr 0xFF =? TRAP_GETC) || (Z.land instr 0xFF =? TRAP_IN)
    then [R_R7; R_R0] else [R_R7]
  else [].

(** TRAP HALT. *)
Definition is_halt (instr : Z) : bool :=
  (opcode instr =? OP_TRAP) && (Z.land instr 0xFF =? TRAP_HALT).

(** The low bytes of the [n] words from address [a] on. *)
Definition low_bytes (mem : Z -> Z) (a : Z) (n : nat) : list Z :=
  map (fun k => mem (a + Z.of_nat k) mod 256) (seq 0 n).

(** The bytes of the [n] words from address [a] on, packed two to a word:
    the low byte, then the high byte unless it is zero. *)
Definition packed_bytes (mem : Z -> Z) (a : Z) (n : nat) : list Z :=
  flat_map
    (fun k =>
       let v := mem (a + Z.of_nat k) in
       (v mod 256) :: (if v / 256 mod 256 =? 0 then [] else [v / 256 mod 256]))
    (seq 0 n).

Section Output.

Context {W : Type} {HostW : Host W}.

(** [putc] of each byte in turn. *)
Definition put_bytes (bytes : list Z) (w : W) : W :=
  fold_left (fun w b => putc b w) bytes w.

End Output.

(** An image file the loader can take whole: an origin other than 0, a
    payload of whole words, all of them below the end of memory. *)
Definition well_formed_image (file : list Z) : Prop :=
  match file with
  | b0 :: b1 :: payload =>
      is_byte b0 /\ is_byte b1 /\ Forall is_byte payload /\
      b0 * 256 + b1 <> 0 /\
      Nat.even (List.length payload) = true /\
      b0 * 256 + b1 + Z.of_nat (List.length (image_words payload)) <= 65536
  | _ => False
  end.

(** The origin an image file gives. *)
Definition image_origin (file : list Z) : Z :=
  match file with
  | b0 :: b1 :: _ => b0 * 256 + b1
  | _ => 0
  end.

(** The bytes of an image file after its origin. *)
Definition image_payload (file : list Z) : list Z :=
  match file with
  | _ :: _ :: payload => payload
  | _ => []
  end.

(** Whether address [a] is one the image has a word for. *)
Definition covers (file : list Z) (a : Z) : bool :=
  (image_origin file <=? a)
  && (a <? image_origin file + Z.of_nat (List.length (image_words (image_payload file)))).

(** The word the image has for address [a]. *)
Definition image_word (file : list Z) (a : Z) : Z :=
  nth (Z.to_nat (a - image_origin file)) (image_words (image_payload file)) 0.

(** The settings of the terminal of standard input: the local modes, which
    the program changes, and the other fields of [struct termios], which
    it copies. *)
Record termios : Type := mkTermios {
  c_lflag : Z;
  c_other : list Z
}.

(** The terminal: the settings in force ([tcgetattr] reads them,
    [tcsetattr] sets them) and the global [original_tio]. *)
Record terminal : Type := mkTerminal {
  tio : termios;
  original_tio : termios
}.

Section Main.

(** The two mode bits of <termios.h> the program names. *)
Variables ICANON ECHO : Z.

(** [disable_input_buffering], lines 108-114. *)
Definition disable_input_buffering (t : terminal) : terminal :=
  let original := tio t in
  let new_tio :=
    mkTermios (Z.land (c_lflag original) (Z.land (Z.lnot ICANON) (Z.lnot ECHO)))
      (c_other original) in
  mkTerminal new_tio original.

(** [restore_input_buffering], lines 116-119. *)
Definition restore_input_buffering (t : terminal) : terminal :=
  mkTerminal (original_tio t) (original_tio t).

Context {W : Type} {HostW : Host W}.

Variable fread_partial : Z -> Z -> Z.

(** The files [fopen] finds: the bytes of the file at a path, or nothing
    when it cannot be opened. *)
Variable files : string -> option (list Z).

(** What a call of [read_image] comes to: it returns 1 with the image in
    memory, returns 0 because the file could not be opened, or reads a
    file too short to hold an origin. *)
Inductive read_result : Type :=
| ImageRead (mem : Z -> Z)
| NotOpened
| NoOrigin.

(** [read_image], lines 184-190. *)
Definition read_image (image_path : string) (mem : Z -> Z) : read_result :=
  match files image_path with
  | None => NotOpened
  | Some file =>
      match read_image_file fread_partial file mem with
      | Some mem => ImageRead mem
      | None => NoOrigin
      end
  end.

(** How [main] ends: by [exit] or by returning, with the terminal and the
    host as they are left; killed by a signal, with the terminal as it is
    left; not within the fuel given; or after a read with no origin. *)
Inductive main_result : Type :=
| Ends (status : Z) (t : terminal) (w : W)
| Killed (sig : Z) (t : terminal)
| Unfinished
| Unspecified.

(** The character '\n' of the format strings. *)
Definition newline : string := String (ascii_of_nat 10) EmptyString.

(** The loop over the arguments of [main], lines 217-222: the memory with
    all images read, or the first path whose [read_image] returned 0. *)
Fixpoint load_all (paths : list string) (mem : Z -> Z)
  : (Z -> Z) + option string :=
  match paths with
  | [] => inl mem
  | path :: paths =>
      match read_image path mem with
      | ImageRead mem => load_all paths mem
      | NotOpened => inr (Some path)
      | NoOrigin => inr None
      end
  end.

(** [main], lines 209-458, on the arguments after the program name
    ([argc] is their number plus one); the arrays are zero when it starts.
    [exit] and the return from [main] flush the output; [abort()] ends the
    process on SIGABRT where it stands.  The handler installed for SIGINT
    runs only on an interrupt from outside, which the model does not
    have. *)
Definition main (paths : list string) (fuel : nat) (t : terminal) (w : W)
  : main_result :=
  if Z.of_nat (S (List.length paths)) <? 2 then
    Ends 2 t (fflush (put_string ("[Usage]: lc3-vm [image-file1] ..." ++ newline) w))
  else
    match load_all paths (fun _ => 0) with
    | inr (Some path) =>
        Ends 1 t
          (fflush (put_string ("Failed to load image: " ++ path ++ newline) w))
    | inr None => Unspecified
    | inl mem =>
        let t := disable_input_buffering t in
        match main_loop fuel (reset mem w) with
        | None => Unfinished
        | Some (Signaled sig, _) => Killed sig t
        | Some (Exited status, s) =>
            Ends status (restore_input_buffering t) (fflush (world s))
        end
    end.

End Main.

(** ** Concrete machines and files for running the model *)

(** The machine at reset over a memory that holds the given words at the
    given addresses and 0 elsewhere. *)
Definition boot_program (cells : list (Z * Z)) (ks : list Z) : state console :=
  reset (fold_right (fun c mem => upd mem (fst c) (snd c)) (fun _ => 0) cells)
    (mkConsole ks []).

(** NOT R4, R4 twice, with 0x00F0 in R4. *)
Definition not_not_state : state console :=
  set_reg R_R4 0x00F0 (boot_program [(0x3000, 0x993F); (0x3001, 0x993F)] []).

(** JSR +1 at 0x3000 and RET at 0x3002. *)
Definition call_state : state console :=
  boot_program [(0x3000, 0x4801); (0x3002, 0xC1C0)] [].

(** ST R1, #1 then LD R2, #0, both on 0x3002, with 0x1234 in R1. *)
Definition st_ld_state : state console :=
  set_reg R_R1 0x1234 (boot_program [(0x3000, 0x3201); (0x3001, 0x2400)] []).

(** STI R1, #1 then LDI R2, #0 through the cell 0x3002, which holds 0x4000. *)
Definition sti_ldi_state : state console :=
  set_reg R_R1 0x1234
    (boot_program [(0x3000, 0xB201); (0x3001, 0xA400); (0x3002, 0x4000)] []).

(** TRAP PUTS with the string "Hi" at address 0 (R0 = 0). *)
Definition puts_state : state console :=
  boot_program [(0x3000, 0xF022); (0, 0x48); (1, 0x69)] [].

(** TRAP PUTSP with the packed string "Hi!" at address 0 (R0 = 0). *)
Definition putsp_state : state console :=
  boot_program [(0x3000, 0xF024); (0, 0x6948); (1, 0x0021)] [].

(** A file system with one image, TRAP HALT at 0x3000. *)
Definition one_image (path : string) : option (list Z) :=
  if String.eqb path "halt.obj" then Some [0x30; 0x00; 0xF0; 0x25] else None.

(** A terminal in canonical mode with echo, for ICANON = 2 and ECHO = 8. *)
Definition cooked_terminal : terminal :=
  mkTerminal (mkTermios 0x8A3B []) (mkTermios 0 []).

(** The memory after that image is read into zeroed memory. *)
Definition halt_memory : Z -> Z :=
  match read_image_file (fun old _ => old) [0x30; 0x00; 0xF0; 0x25] (fun _ => 0) with
  | Some mem => mem
  | None => fun _ => 0
  end.

(** * Properties *)

(** The opcode scenarios of the specification, run on the model. *)

Example scenario_add_imm :
  match step (boot 0x1265 []) with
  | Ok s => reg s R_R1 = 5 /\ reg s R_COND = FL_POS /\ reg s R_PC = 0x3001
  | Aborted => False
  end.
Proof. vm_compute. repeat split; reflexivity. Qed.

Example scenario_add_minus_one :
  match step (boot 0x14BF []) with
  | Ok s => reg s R_R2 = 0xFFFF /\ reg s R_COND = FL_NEG
  | Aborted => False
  end.
Proof. vm_compute. repeat split; reflexivity. Qed.

Example scenario_and_zero :
  match step (boot 0x56E0 []) with
  | Ok s => reg s R_R3 = 0 /\ reg s R_COND = FL_ZRO
  | Aborted => False
  end.
Proof. vm_compute. repeat split; reflexivity. Qed.

Example scenario_not :
  match step (boot 0x993F []) with
  | Ok s => reg s R_R4 = 0xFFFF /\ reg s R_COND = FL_NEG
  | Aborted => False
  end.
Proof. vm_compute. repeat split; reflexivity. Qed.

Example scenario_lea :
  match step (boot 0xE002 []) with
  | Ok s => reg s R_R0 = 0x3003 /\ reg s R_COND = FL_POS
  | Aborted => False
  end.
Proof. vm_compute. repeat split; reflexivity. Qed.

Example scenario_halt :
  match main_loop 5 (boot 0xF025 []) with
  | Some (t, s) =>
      process_status t = 0 /\ printed (world s) = bytes_of_string "HALT" ++ [10]
  | None => False
  end.
Proof. vm_compute. repeat split; reflexivity. Qed.

Example scenario_image :
  match read_image_file (fun old _ => old) [0x30; 0x00; 0xF0; 0x25; 0x12] (fun _ => 0) with
  | Some mem => mem 0x3000 = 0xF025 /\ mem 0x3001 = 0 /\ mem 0x2FFF = 0
  | None => False
  end.
Proof. vm_compute. repeat split; reflexivity. Qed.

(** ** Arithmetic of 16-bit words *)

Lemma u16_range (z : Z) : 0 <= u16 z < 65536.
Proof. unfold u16. apply Z.mod_pos_bound. lia. Qed.

Lemma u16_small (z : Z) : 0 <= z < 65536 -> u16 z = z.
Proof. intros Hz. unfold u16. now apply Z.mod_small. Qed.

Lemma u16_idem (z : Z) : u16 (u16 z) = u16 z.
Proof. apply u16_small, u16_range. Qed.

Lemma u16_add_l (a b : Z) : u16 (u16 a + b) = u16 (a + b).
Proof. unfold u16. apply Zplus_mod_idemp_l. Qed.

Lemma land_7_range (x : Z) : 0 <= Z.land x 0x7 <= 7.
Proof.
  assert (He : Z.land x 0x7 = x mod 8)
    by (change 0x7 with (Z.ones 3); rewrite Z.land_ones by lia; reflexivity).
  rewrite He. pose proof (Z.mod_pos_bound x 8 ltac:(lia)). lia.
Qed.

Lemma bits_11_9_range (instr : Z) : 0 <= bits_11_9 instr <= 7.
Proof. apply land_7_range. Qed.

Lemma bits_8_6_range (instr : Z) : 0 <= bits_8_6 instr <= 7.
Proof. apply land_7_range. Qed.

(** For a 16-bit word, [w >> 15] is nonzero exactly when bit 15 is set. *)
Lemma shiftr_15_testbit (w : Z) :
  0 <= w < 65536 -> (Z.shiftr w 15 =? 0) = negb (Z.testbit w 15).
Proof.
  intros Hw.
  assert (Hq : 0 <= Z.shiftr w 15 < 2).
  { rewrite Z.shiftr_div_pow2 by lia. change (2 ^ 15) with 32768.
    split; [apply Z.div_pos; lia | apply Z.div_lt_upper_bound; lia]. }
  replace (Z.testbit w 15) with (Z.testbit (Z.shiftr w 15) 0)
    by (rewrite Z.shiftr_spec by lia; reflexivity).
  assert (Hc : Z.shiftr w 15 = 0 \/ Z.shiftr w 15 = 1) by lia.
  destruct Hc as [-> | ->]; reflexivity.
Qed.

Lemma flags_agree_of_word (w : Z) :
  0 <= w < 65536 ->
  flags_agree
    (if w =? 0 then FL_ZRO
     else if negb (Z.shiftr w 15 =? 0) then FL_NEG else FL_POS) w.
Proof.
  intros Hw. unfold flags_agree, one_flag.
  rewrite shiftr_15_testbit by assumption. rewrite negb_involutive.
  destruct (w =? 0) eqn:Hz.
  - apply Z.eqb_eq in Hz. subst w. cbv. intuition congruence.
  - apply Z.eqb_neq in Hz.
    destruct (Z.testbit w 15); cbv [FL_NEG FL_ZRO FL_POS Z.shiftl Pos.iter Z.mul Pos.mul];
      intuition congruence.
Qed.

(** ** Facts on the state operations *)

Lemma upd_same (f : Z -> Z) (i v : Z) : upd f i v i = v.
Proof. unfold upd. now rewrite Z.eqb_refl. Qed.

Lemma upd_other (f : Z -> Z) (i v j : Z) : j <> i -> upd f i v j = f j.
Proof. intros Hne. unfold upd. now apply Z.eqb_neq in Hne as ->. Qed.

Ltac state_simpl :=
  cbn [reg memory running world set_reg set_mem set_world set_running
       mem_write fst snd] in *.

Section MachineFacts.

Context {W : Type} {HostW : Host W}.

Implicit Types s : state W.

Lemma reg_set_reg_same r v s : reg (set_reg r v s) r = u16 v.
Proof. state_simpl. apply upd_same. Qed.

Lemma reg_set_reg_other r v s r' : r' <> r -> reg (set_reg r v s) r' = reg s r'.
Proof. intros Hne. state_simpl. now apply upd_other. Qed.

Lemma update_flags_eq r s :
  update_flags r s =
  set_reg R_COND
    (if reg s r =? 0 then FL_ZRO
     else if negb (Z.shiftr (reg s r) 15 =? 0) then FL_NEG else FL_POS) s.
Proof.
  unfold update_flags.
  destruct (reg s r =? 0); [reflexivity|].
  destruct (negb (Z.shiftr (reg s r) 15 =? 0)); reflexivity.
Qed.

Lemma update_flags_reg r s r' :
  r' <> R_COND -> reg (update_flags r s) r' = reg s r'.
Proof. intros Hne. rewrite update_flags_eq. now apply reg_set_reg_other. Qed.

Lemma update_flags_memory r s : memory (update_flags r s) = memory s.
Proof. now rewrite update_flags_eq. Qed.

Lemma update_flags_world r s : world (update_flags r s) = world s.
Proof. now rewrite update_flags_eq. Qed.

Lemma update_flags_running r s : running (update_flags r s) = running s.
Proof. now rewrite update_flags_eq. Qed.

(** After [reg[r] = v; update_flags(r)] with [r] a general-purpose
    register, the flags agree with the word now in [r]. *)
Lemma flags_after_write r v s :
  0 <= r <= 7 ->
  let s' := update_flags r (set_reg r v s) in
  flags_agree (reg s' R_COND) (reg s' r).
Proof.
  intros Hr s'. subst s'.
  rewrite (update_flags_reg r _ r) by (unfold R_COND; lia).
  rewrite update_flags_eq, !reg_set_reg_same.
  pose proof (flags_agree_of_word (u16 v) (u16_range v)) as Hf.
  destruct (u16 v =? 0); [exact Hf|].
  destruct (negb (Z.shiftr (u16 v) 15 =? 0)); exact Hf.
Qed.

(** *** [mem_read] *)

Lemma mem_read_plain a s :
  u16 a <> MR_KBSR -> mem_read a s = (memory s (u16 a), s).
Proof.
  intros Hne. unfold mem_read. now apply Z.eqb_neq in Hne as ->.
Qed.

Lemma mem_read_reg a s : reg (snd (mem_read a s)) = reg s.
Proof.
  unfold mem_read. destruct (u16 a =? MR_KBSR); [|reflexivity].
  destruct (check_key (world s)) as [[|] w]; state_simpl; [|reflexivity].
  destruct (getchar w) as [c w']. reflexivity.
Qed.

Lemma mem_read_running a s : running (snd (mem_read a s)) = running s.
Proof.
  unfold mem_read. destruct (u16 a =? MR_KBSR); [|reflexivity].
  destruct (check_key (world s)) as [[|] w]; state_simpl; [|reflexivity].
  destruct (getchar w) as [c w']. reflexivity.
Qed.

(** A read changes no word other than the two device registers. *)
Lemma mem_read_memory a s x :
  x <> MR_KBSR -> x <> MR_KBDR -> memory (snd (mem_read a s)) x = memory s x.
Proof.
  intros H1 H2. unfold mem_read. destruct (u16 a =? MR_KBSR); [|reflexivity].
  destruct (check_key (world s)) as [[|] w]; state_simpl.
  - destruct (getchar w) as [c w']. state_simpl.
    now rewrite !upd_other.
  - now rewrite upd_other.
Qed.

(** What a read of the keyboard status register returns. *)
Lemma mem_read_kbsr_value a s :
  u16 a = MR_KBSR ->
  fst (mem_read a s) = 0 \/ fst (mem_read a s) = 0x8000.
Proof.
  intros He. unfold mem_read. rewrite He. rewrite Z.eqb_refl.
  destruct (check_key (world s)) as [[|] w]; state_simpl.
  - right. destruct (getchar w) as [c w']. state_simpl.
    rewrite upd_other by (unfold MR_KBSR, MR_KBDR; lia).
    rewrite upd_same. reflexivity.
  - left. rewrite upd_same. reflexivity.
Qed.

(** *** [fetch] *)

Lemma fetch_reg s instr s1 r :
  fetch s = (instr, s1) ->
  reg s1 r = if r =? R_PC then u16 (reg s R_PC + 1) else reg s r.
Proof.
  unfold fetch. intros Hf.
  pose proof (mem_read_reg (reg s R_PC) (set_reg R_PC (reg s R_PC + 1) s)) as Hr.
  rewrite Hf in Hr. state_simpl. rewrite Hr. reflexivity.
Qed.

Lemma fetch_pc s instr s1 :
  fetch s = (instr, s1) -> reg s1 R_PC = u16 (reg s R_PC + 1).
Proof. intros Hf. now rewrite (fetch_reg _ _ _ R_PC Hf). Qed.

Lemma fetch_reg_other s instr s1 r :
  fetch s = (instr, s1) -> r <> R_PC -> reg s1 r = reg s r.
Proof.
  intros Hf Hne. rewrite (fetch_reg _ _ _ r Hf).
  now apply Z.eqb_neq in Hne as ->.
Qed.

Lemma fetch_running s instr s1 :
  fetch s = (instr, s1) -> running s1 = running s.
Proof.
  unfold fetch. intros Hf.
  pose proof (mem_read_running (reg s R_PC) (set_reg R_PC (reg s R_PC + 1) s)) as Hr.
  now rewrite Hf in Hr.
Qed.

Lemma fetch_memory s instr s1 x :
  fetch s = (instr, s1) ->
  x <> MR_KBSR -> x <> MR_KBDR -> memory s1 x = memory s x.
Proof.
  unfold fetch. intros Hf H1 H2.
  pose proof (mem_read_memory (reg s R_PC) (set_reg R_PC (reg s R_PC + 1) s) x H1 H2) as Hm.
  now rewrite Hf in Hm.
Qed.

(** An instruction fetched from the keyboard status register is 0 or
    0x8000; any other fetch is a plain read. *)
Lemma fetch_cases s instr s1 :
  fetch s = (instr, s1) ->
  (instr = 0 \/ instr = 0x8000) \/
  (instr = memory s (u16 (reg s R_PC)) /\
   memory s1 = memory s /\ world s1 = world s).
Proof.
  unfold fetch. intros Hf.
  destruct (Z.eq_dec (u16 (reg s R_PC)) MR_KBSR) as [He | Hne].
  - left. pose proof (mem_read_kbsr_value _ (set_reg R_PC (reg s R_PC + 1) s) He) as Hv.
    now rewrite Hf in Hv.
  - right. rewrite mem_read_plain in Hf by assumption.
    inversion Hf; subst. auto.
Qed.

End MachineFacts.


(** Evaluate the comparisons between constants in the goal. *)
Ltac eval_eqb :=
  repeat match goal with
    | |- context [?a =? ?b] =>
        let v := eval vm_compute in (a =? b) in
        match v with
        | true => change (a =? b) with true
        | false => change (a =? b) with false
        end
    end;
  cbv iota.

Ltac opcode_clash :=
  match goal with
  | E1 : opcode ?i = _, E2 : opcode ?i = _ |- _ =>
      exfalso; rewrite E1 in E2; discriminate E2
  end.

Section Flags.

Context {W : Type} {HostW : Host W}.

Implicit Types s : state W.

Lemma execute_case instr s : exec_case instr s (execute instr s).
Proof.
  unfold execute.
  repeat match goal with
    | |- exec_case _ _ (if ?a =? ?b then _ else _) =>
        destruct (Z.eqb_spec a b); [constructor; assumption|]
    end.
  apply case_default. cbn [In]. intuition congruence.
Qed.

Lemma step_case s instr s1 :
  fetch s = (instr, s1) -> exec_case instr s1 (step s).
Proof. intros Hf. unfold step. rewrite Hf. apply execute_case. Qed.

Lemma written_rd_cases instr rd :
  written_rd instr = Some rd ->
  (In (opcode instr) [OP_ADD; OP_AND; OP_NOT; OP_LD; OP_LDI; OP_LDR; OP_LEA]
   /\ rd = bits_11_9 instr) \/
  (opcode instr = OP_TRAP /\ rd = R_R0 /\
   (Z.land instr 0xFF = TRAP_GETC \/ Z.land instr 0xFF = TRAP_IN)).
Proof.
  unfold written_rd. cbn [In].
  repeat match goal with
    | |- context [?a =? ?b] => destruct (Z.eqb_spec a b)
    end; cbn [orb andb]; intros Hw; inversion Hw; subst; auto 12.
Qed.

Lemma op_add_flags instr s :
  flags_agree (reg (op_add instr s) R_COND) (reg (op_add instr s) (bits_11_9 instr)).
Proof.
  unfold op_add.
  destruct (negb (bit_5 instr =? 0)); apply flags_after_write, bits_11_9_range.
Qed.

Lemma op_and_flags instr s :
  flags_agree (reg (op_and instr s) R_COND) (reg (op_and instr s) (bits_11_9 instr)).
Proof.
  unfold op_and.
  destruct (negb (bit_5 instr =? 0)); apply flags_after_write, bits_11_9_range.
Qed.

Lemma op_not_flags instr s :
  flags_agree (reg (op_not instr s) R_COND) (reg (op_not instr s) (bits_11_9 instr)).
Proof. apply flags_after_write, bits_11_9_range. Qed.

Lemma op_ld_flags instr s :
  flags_agree (reg (op_ld instr s) R_COND) (reg (op_ld instr s) (bits_11_9 instr)).
Proof.
  unfold op_ld. destruct (mem_read _ s) as [v s2].
  apply flags_after_write, bits_11_9_range.
Qed.

Lemma op_ldi_flags instr s :
  flags_agree (reg (op_ldi instr s) R_COND) (reg (op_ldi instr s) (bits_11_9 instr)).
Proof.
  unfold op_ldi. destruct (mem_read _ s) as [a s2]. destruct (mem_read a s2) as [v s3].
  apply flags_after_write, bits_11_9_range.
Qed.

Lemma op_ldr_flags instr s :
  flags_agree (reg (op_ldr instr s) R_COND) (reg (op_ldr instr s) (bits_11_9 instr)).
Proof.
  unfold op_ldr. destruct (mem_read _ s) as [v s2].
  apply flags_after_write, bits_11_9_range.
Qed.

Lemma op_lea_flags instr s :
  flags_agree (reg (op_lea instr s) R_COND) (reg (op_lea instr s) (bits_11_9 instr)).
Proof. apply flags_after_write, bits_11_9_range. Qed.

Lemma op_trap_input_flags instr s :
  Z.land instr 0xFF = TRAP_GETC \/ Z.land instr 0xFF = TRAP_IN ->
  flags_agree (reg (op_trap instr s) R_COND) (reg (op_trap instr s) R_R0).
Proof.
  unfold op_trap. intros [-> | ->]; eval_eqb.
  - destruct (getchar _) as [c w]. apply flags_after_write. unfold R_R0. lia.
  - destruct (getchar _) as [c w]. apply flags_after_write. unfold R_R0. lia.
Qed.

(** C1. After every instruction that writes a general-purpose register
    together with the flags (ADD, AND, NOT, LD, LDI, LDR, LEA into DR; the
    traps GETC and IN into R0), COND is exactly one of FL_NEG (4), FL_ZRO
    (2), FL_POS (1), and it is the one that matches the final value of the
    register: Z iff it is 0, N iff its bit 15 is set, P otherwise. *)
Theorem flags_follow_written_register s instr s1 rd :
  fetch s = (instr, s1) ->
  written_rd instr = Some rd ->
  exists s', step s = Ok s' /\ flags_agree (reg s' R_COND) (reg s' rd).
Proof.
  intros Hf Hw.
  pose proof (step_case s instr s1 Hf) as Hc.
  apply written_rd_cases in Hw.
  destruct Hw as [[Hop ->] | (Hop & -> & Hcode)].
  - cbn [In] in Hop.
    inversion Hc as [E|E|E|E|E|E|E|E|E|E|E|E|E|E|E];
      try solve [exfalso; cbn [In] in E; tauto];
      try solve [exfalso; rewrite E in Hop; intuition discriminate];
      eexists; (split; [reflexivity|]);
      auto using op_add_flags, op_and_flags, op_not_flags, op_ld_flags,
        op_ldi_flags, op_ldr_flags, op_lea_flags.
  - inversion Hc as [E|E|E|E|E|E|E|E|E|E|E|E|E|E|E];
      try opcode_clash;
      try solve [exfalso; apply E; rewrite Hop; cbn [In];
                 repeat (first [left; reflexivity | right])].
    eexists. split; [reflexivity|]. now apply op_trap_input_flags.
Qed.

End Flags.


(** Reduce [step] once the fetched word and its opcode are known. *)
Ltac step_at Hf E :=
  unfold step; rewrite Hf; unfold execute; rewrite E; eval_eqb.

Section Control.

Context {W : Type} {HostW : Host W}.

Implicit Types s : state W.

(** C5. BR adds the sign-extended 9-bit offset to the incremented PC
    exactly when [nzp & COND] is nonzero and leaves COND as it was; with
    nzp = 000 the PC only gets the fetch increment, and with nzp = 111 the
    offset is always added when COND is one of N, Z, P. *)
Theorem br_taken_iff_flags s instr s1 :
  fetch s = (instr, s1) ->
  opcode instr = OP_BR ->
  let nzp := bits_11_9 instr in
  let off := sign_extend (Z.land instr 0x1FF) 9 in
  exists s',
    step s = Ok s' /\
    reg s' R_COND = reg s R_COND /\
    (Z.land nzp (reg s R_COND) <> 0 -> reg s' R_PC = u16 (reg s R_PC + 1 + off)) /\
    (Z.land nzp (reg s R_COND) = 0 -> reg s' R_PC = u16 (reg s R_PC + 1)) /\
    (nzp = 0 -> reg s' R_PC = u16 (reg s R_PC + 1)) /\
    (nzp = 7 -> one_flag (reg s R_COND) ->
     reg s' R_PC = u16 (reg s R_PC + 1 + off)).
Proof.
  intros Hf E nzp off.
  pose proof (fetch_pc _ _ _ Hf) as Hpc.
  assert (Hcond : reg s1 R_COND = reg s R_COND)
    by (apply (fetch_reg_other _ _ _ _ Hf); discriminate).
  assert (Htaken : Z.land nzp (reg s R_COND) <> 0 ->
                   reg (op_br instr s1) R_PC = u16 (reg s R_PC + 1 + off)).
  { intros Hnz. unfold op_br. fold nzp off. rewrite Hcond.
    apply Z.eqb_neq in Hnz. rewrite Hnz. cbn [negb].
    rewrite reg_set_reg_same, Hpc. apply u16_add_l. }
  assert (Hnot : Z.land nzp (reg s R_COND) = 0 ->
                 reg (op_br instr s1) R_PC = u16 (reg s R_PC + 1)).
  { intros Hz. unfold op_br. fold nzp. rewrite Hcond, Hz. exact Hpc. }
  exists (op_br instr s1). split; [step_at Hf E; reflexivity|].
  split.
  { unfold op_br. destruct (negb _); [|exact Hcond].
    rewrite reg_set_reg_other by discriminate. exact Hcond. }
  repeat split; auto.
  - intros Hn. apply Hnot. rewrite Hn. apply Z.land_0_l.
  - intros Hn Hc. apply Htaken. rewrite Hn.
    destruct Hc as [-> | [-> | ->]]; discriminate.
Qed.

(** C10. The register form of JSR with BaseR = R7 puts the incremented PC
    into R7 and then into PC, whatever R7 held before: the next fetch reads
    the word that follows the instruction. *)
Theorem jsrr_r7_continues_at_next_word s instr s1 :
  fetch s = (instr, s1) ->
  opcode instr = OP_JSR ->
  bit_11 instr = 0 ->
  bits_8_6 instr = R_R7 ->
  exists s',
    step s = Ok s' /\
    reg s' R_R7 = u16 (reg s R_PC + 1) /\
    reg s' R_PC = u16 (reg s R_PC + 1) /\
    fetch s' =
      mem_read (u16 (reg s R_PC + 1)) (set_reg R_PC (u16 (reg s R_PC + 1) + 1) s').
Proof.
  intros Hf E Hb Hr.
  pose proof (fetch_pc _ _ _ Hf) as Hpc.
  assert (H7 : reg (op_jsr instr s1) R_R7 = u16 (reg s R_PC + 1)).
  { unfold op_jsr. rewrite Hb, Hr. eval_eqb.
    rewrite reg_set_reg_other by discriminate.
    rewrite reg_set_reg_same, Hpc. apply u16_idem. }
  assert (Hp : reg (op_jsr instr s1) R_PC = u16 (reg s R_PC + 1)).
  { unfold op_jsr. rewrite Hb, Hr. eval_eqb.
    rewrite !reg_set_reg_same, Hpc. now rewrite !u16_idem. }
  exists (op_jsr instr s1). split; [step_at Hf E; reflexivity|].
  repeat split; auto.
  unfold fetch. now rewrite Hp.
Qed.

End Control.

Section Traps.

Context {W : Type} {HostW : Host W}.

Implicit Types s : state W.

Lemma opcode_of_kbsr_read instr :
  instr = 0 \/ instr = 0x8000 -> opcode instr = OP_BR \/ opcode instr = OP_RTI.
Proof. intros [-> | ->]; [left | right]; reflexivity. Qed.

(** A TRAP instruction never comes from the keyboard status register, so
    its fetch is a plain read. *)
Lemma fetch_trap_plain s instr s1 :
  fetch s = (instr, s1) ->
  opcode instr = OP_TRAP ->
  memory s1 = memory s /\ world s1 = world s.
Proof.
  intros Hf E. destruct (fetch_cases _ _ _ Hf) as [Hk | (_ & Hm & Hw)]; [|auto].
  apply opcode_of_kbsr_read in Hk. destruct Hk as [Hk | Hk];
    rewrite E in Hk; discriminate Hk.
Qed.

Lemma op_trap_unknown instr s :
  ~ In (Z.land instr 0xFF) standard_traps ->
  op_trap instr s = set_reg R_R7 (reg s R_PC) s.
Proof.
  intros Hn. unfold op_trap.
  repeat match goal with
    | |- context [Z.land instr 0xFF =? ?c] =>
        destruct (Z.eqb_spec (Z.land instr 0xFF) c) as [He | _];
        [exfalso; apply Hn; rewrite He; cbn [In standard_traps]; tauto|]
    end.
  reflexivity.
Qed.

(** C9. A TRAP whose low 8 bits are none of 0x20..0x25 puts the
    incremented PC into R7 and does nothing else: no other register (COND
    included), no memory word and nothing of the host changes, the running
    flag stays as it was, and the loop goes on to the next fetch: the
    next turn of the loop is the step of the state the trap left, whose
    fetch reads the word that follows the TRAP instruction. *)
Theorem unknown_trap_only_clobbers_r7 s instr s1 :
  fetch s = (instr, s1) ->
  opcode instr = OP_TRAP ->
  ~ In (Z.land instr 0xFF) standard_traps ->
  exists s',
    step s = Ok s' /\
    reg s' R_R7 = u16 (reg s R_PC + 1) /\
    reg s' R_PC = u16 (reg s R_PC + 1) /\
    (forall r, r <> R_R7 -> r <> R_PC -> reg s' r = reg s r) /\
    reg s' R_COND = reg s R_COND /\
    (forall a, memory s' a = memory s a) /\
    world s' = world s /\
    running s' = running s /\
    (running s = true -> forall fuel, main_loop (S fuel) s = main_loop fuel s') /\
    fetch s' =
    mem_read (u16 (reg s R_PC + 1)) (set_reg R_PC (u16 (reg s R_PC + 1) + 1) s') /\
    (running s = true ->
     forall fuel,
       main_loop (S (S fuel)) s =
       match step s' with
       | Aborted => Some (Signaled SIGABRT, s')
       | Ok s'' => main_loop fuel s''
       end).
Proof.
  intros Hf E Hn.
  pose proof (fetch_pc _ _ _ Hf) as Hpc.
  destruct (fetch_trap_plain _ _ _ Hf E) as [Hm Hw].
  assert (Hs : step s = Ok (set_reg R_R7 (reg s1 R_PC) s1)).
  { step_at Hf E. now rewrite op_trap_unknown. }
  assert (Hr : forall r, r <> R_R7 -> r <> R_PC ->
                 reg (set_reg R_R7 (reg s1 R_PC) s1) r = reg s r).
  { intros r H7 H8. rewrite reg_set_reg_other by assumption.
    now apply (fetch_reg_other _ _ _ _ Hf). }
  exists (set_reg R_R7 (reg s1 R_PC) s1).
  split; [exact Hs|]. split.
  { rewrite reg_set_reg_same, Hpc. apply u16_idem. }
  split.
  { rewrite reg_set_reg_other by discriminate. exact Hpc. }
  split; [exact Hr|]. split; [apply Hr; discriminate|].
  split; [intros a; state_simpl; now rewrite Hm|].
  split; [exact Hw|].
  split; [exact (fetch_running _ _ _ Hf)|].
  split; [intros Hrun fuel; cbn [main_loop]; now rewrite Hrun, Hs|].
  split.
  { unfold fetch. cbv zeta.
    rewrite reg_set_reg_other by discriminate. now rewrite Hpc. }
  intros Hrun fuel.
  assert (Hrun' : running (set_reg R_R7 (reg s1 R_PC) s1) = true).
  { state_simpl. now rewrite (fetch_running _ _ _ Hf). }
  change (main_loop (S (S fuel)) s)
    with (if running s
          then match step s with
               | Aborted => Some (Signaled SIGABRT, s)
               | Ok s' => main_loop (S fuel) s'
               end
          else Some (Exited 0, s)).
  rewrite Hrun, Hs. cbn [main_loop]. now rewrite Hrun'.
Qed.

End Traps.

Ltac unfold_ops :=
  unfold op_add, op_and, op_not, op_br, op_jmp, op_jsr, op_ld, op_ldi,
    op_ldr, op_lea, op_st, op_sti, op_str, op_trap; cbv zeta.

(** Name the result of every read in the goal and record what the read
    leaves alone. *)
Ltac read_facts :=
  repeat match goal with
    | |- context [mem_read ?a ?s] =>
        let Hr := fresh "Hreg" in
        let Hm := fresh "Hmem" in
        let Hn := fresh "Hrun" in
        let E := fresh "Eread" in
        pose proof (mem_read_reg a s) as Hr;
        pose proof (mem_read_memory a s) as Hm;
        pose proof (mem_read_running a s) as Hn;
        destruct (mem_read a s) as [? ?] eqn:E;
        cbn [fst snd] in Hr, Hm, Hn
    end.

Ltac split_ifs :=
  repeat match goal with
    | |- context [if ?c then _ else _] => destruct c
    | |- context [let (_, _) := getchar ?w in _] => destruct (getchar w) as [? ?]
    end.

Ltac index_neq :=
  match goal with
  | |- _ <> bits_11_9 ?i => pose proof (bits_11_9_range i); unfold R_PC, R_COND; lia
  | |- _ <> bits_8_6 ?i => pose proof (bits_8_6_range i); unfold R_PC, R_COND; lia
  | |- bits_11_9 ?i <> _ => pose proof (bits_11_9_range i); unfold R_PC, R_COND; lia
  | |- bits_8_6 ?i <> _ => pose proof (bits_8_6_range i); unfold R_PC, R_COND; lia
  | |- _ => discriminate
  end.

Section ProgramCounter.

Context {W : Type} {HostW : Host W}.

Implicit Types s : state W.

(** Outside BR, JMP and JSR no case of the switch assigns [PC]. *)
Lemma pc_unchanged instr s :
  reg (op_add instr s) R_PC = reg s R_PC /\
  reg (op_and instr s) R_PC = reg s R_PC /\
  reg (op_not instr s) R_PC = reg s R_PC /\
  reg (op_ld instr s) R_PC = reg s R_PC /\
  reg (op_ldi instr s) R_PC = reg s R_PC /\
  reg (op_ldr instr s) R_PC = reg s R_PC /\
  reg (op_lea instr s) R_PC = reg s R_PC /\
  reg (op_st instr s) R_PC = reg s R_PC /\
  reg (op_sti instr s) R_PC = reg s R_PC /\
  reg (op_str instr s) R_PC = reg s R_PC /\
  reg (op_trap instr s) R_PC = reg s R_PC.
Proof.
  repeat split; unfold_ops; read_facts; split_ifs;
    rewrite ?update_flags_eq; state_simpl;
    rewrite ?upd_other by index_neq; congruence.
Qed.

(** What a read returns does not depend on the registers. *)
Lemma mem_read_value_set_reg a r v s :
  fst (mem_read a (set_reg r v s)) = fst (mem_read a s).
Proof.
  unfold mem_read. state_simpl. destruct (u16 a =? MR_KBSR); [|reflexivity].
  destruct (check_key (world s)) as [[|] w]; state_simpl; [|reflexivity].
  destruct (getchar w) as [c w']. reflexivity.
Qed.


Lemma op_jmp_pc instr s :
  reg (op_jmp instr s) R_PC = u16 (reg s (bits_8_6 instr)).
Proof. apply reg_set_reg_same. Qed.

Lemma op_jsr_pc instr s :
  reg (op_jsr instr s) R_PC =
  if bit_11 instr =? 0 then
    if bits_8_6 instr =? R_R7 then u16 (u16 (reg s R_PC))
    else u16 (reg s (bits_8_6 instr))
  else u16 (reg s R_PC + sign_extend (Z.land instr 0x7FF) 11).
Proof.
  unfold op_jsr. destruct (bit_11 instr =? 0).
  - rewrite reg_set_reg_same.
    destruct (Z.eqb_spec (bits_8_6 instr) R_R7) as [-> | Hne].
    + now rewrite reg_set_reg_same.
    + now rewrite reg_set_reg_other.
  - rewrite reg_set_reg_same. now rewrite reg_set_reg_other by discriminate.
Qed.

(** A read depends on its address only through the 16-bit value the
    parameter receives. *)
Lemma mem_read_u16 a s : mem_read a s = mem_read (u16 a) s.
Proof. unfold mem_read. now rewrite u16_idem. Qed.

(** C2 (as amended).  The fetch reads the word at PC and increments PC
    modulo 2^16 before the instruction is decoded, and every PC-relative
    offset is added to the incremented PC: LEA yields [PC + 1 + offset],
    LD and LDI read (LDI: fetch their pointer) at [PC + 1 + offset], ST and
    STI write (STI: fetch their pointer) at [PC + 1 + offset], BR and JSR go
    to [PC + 1 + offset].  After the instruction
    [PC = PC_before + 1 + Delta] modulo 2^16, where [Delta] is 0 for the
    operations that are not control transfers and for a BR that is not
    taken, the sign-extended offset for a taken BR and a PC-relative JSR,
    [R[BaseR] - (PC_before + 1)] for JMP and for the register form of JSR
    with BaseR other than R7, and 0 for the register form of JSR with
    BaseR = R7. *)
Theorem pc_after_step s instr s1 s' :
  fetch s = (instr, s1) ->
  step s = Ok s' ->
  let ea := u16 (reg s R_PC + 1 + sign_extend (Z.land instr 0x1FF) 9) in
  fst (mem_read (reg s R_PC) s) = instr /\
  reg s1 R_PC = u16 (reg s R_PC + 1) /\
  reg s' R_PC = u16 (reg s R_PC + 1 + Delta instr s) /\
  (opcode instr = OP_LEA -> reg s' (bits_11_9 instr) = ea) /\
  (opcode instr = OP_LD ->
   reg s' (bits_11_9 instr) = u16 (fst (mem_read ea s1))) /\
  (opcode instr = OP_LDI ->
   reg s' (bits_11_9 instr) =
   u16 (fst (mem_read (fst (mem_read ea s1)) (snd (mem_read ea s1))))) /\
  (opcode instr = OP_ST ->
   memory s' ea = u16 (reg s (bits_11_9 instr))) /\
  (opcode instr = OP_STI ->
   memory s' (u16 (fst (mem_read ea s1))) = u16 (reg s (bits_11_9 instr))) /\
  (opcode instr <> OP_BR -> opcode instr <> OP_RTI ->
   memory s1 = memory s /\ world s1 = world s).
Proof.
  intros Hf Hs ea.
  pose proof (fetch_pc _ _ _ Hf) as Hpc.
  pose proof (step_case _ _ _ Hf) as Hc. rewrite Hs in Hc.
  destruct (pc_unchanged instr s1)
    as (P1 & P2 & P3 & P4 & P5 & P6 & P7 & P8 & P9 & P10 & P11).
  assert (Hea : u16 (reg s1 R_PC + sign_extend (Z.land instr 0x1FF) 9) = ea).
  { subst ea. rewrite Hpc. apply u16_add_l. }
  split; [|split; [exact Hpc|split; [|split; [|split; [|split; [|split; [|split]]]]]]].
  - unfold fetch in Hf. rewrite <- (mem_read_value_set_reg _ R_PC (reg s R_PC + 1)).
    now rewrite Hf.
  - unfold Delta.
    inversion Hc as [E|E|E|E|E|E|E|E|E|E|E|E|E|E|E]; subst s'; rewrite E; eval_eqb;
      rewrite ?Z.add_0_r; try congruence.
    + (* BR *)
      unfold op_br.
      rewrite (fetch_reg_other _ _ _ R_COND Hf) by discriminate.
      destruct (negb _).
      * rewrite reg_set_reg_same, Hpc. apply u16_add_l.
      * now rewrite Z.add_0_r.
    + (* JMP *)
      rewrite op_jmp_pc, (fetch_reg_other _ _ _ _ Hf) by index_neq.
      f_equal. lia.
    + (* JSR *)
      rewrite op_jsr_pc, Hpc. destruct (bit_11 instr =? 0).
      * destruct (bits_8_6 instr =? R_R7).
        -- now rewrite Z.add_0_r, !u16_idem.
        -- rewrite (fetch_reg_other _ _ _ _ Hf) by index_neq. f_equal. lia.
      * apply u16_add_l.
  - (* LEA *)
    intros E. inversion Hc; subst s'; try opcode_clash.
    unfold op_lea.
    rewrite update_flags_reg by index_neq.
    rewrite reg_set_reg_same. exact Hea.
  - (* LD *)
    intros E. inversion Hc; subst s'; try opcode_clash.
    unfold op_ld. rewrite mem_read_u16, Hea.
    destruct (mem_read ea s1) as [v s2]. cbn [fst].
    rewrite update_flags_reg by index_neq. apply reg_set_reg_same.
  - (* LDI *)
    intros E. inversion Hc; subst s'; try opcode_clash.
    unfold op_ldi. rewrite mem_read_u16, Hea.
    destruct (mem_read ea s1) as [a s2]. cbn [fst snd].
    destruct (mem_read a s2) as [v s3]. cbn [fst].
    rewrite update_flags_reg by index_neq. apply reg_set_reg_same.
  - (* ST *)
    intros E. inversion Hc; subst s'; try opcode_clash.
    unfold op_st, mem_write. state_simpl. rewrite Hea, upd_same.
    now rewrite (fetch_reg_other _ _ _ _ Hf) by index_neq.
  - (* STI *)
    intros E. inversion Hc; subst s'; try opcode_clash.
    unfold op_sti. rewrite mem_read_u16, Hea.
    pose proof (mem_read_reg ea s1) as Hr.
    destruct (mem_read ea s1) as [a s2]. cbn [fst snd] in *.
    unfold mem_write. state_simpl. rewrite upd_same, Hr.
    now rewrite (fetch_reg_other _ _ _ _ Hf) by index_neq.
  - intros Hb Hr.
    destruct (fetch_cases _ _ _ Hf) as [Hk | (_ & Hm & Hw)]; [|auto].
    destruct Hk as [-> | ->]; [exfalso; apply Hb | exfalso; apply Hr]; reflexivity.
Qed.

End ProgramCounter.

Ltac use_read_frames :=
  repeat match goal with
    | H : forall x, x <> MR_KBSR -> x <> MR_KBDR -> memory _ x = memory _ x |- _ =>
        rewrite H by assumption; clear H
    end.

Section MemoryFrame.

Context {W : Type} {HostW : Host W}.

Implicit Types s : state W.

(** Outside ST, STI and STR, a case of the switch changes memory only
    through the reads it makes. *)
Lemma memory_unchanged_non_store instr s x :
  x <> MR_KBSR -> x <> MR_KBDR ->
  memory (op_add instr s) x = memory s x /\
  memory (op_and instr s) x = memory s x /\
  memory (op_not instr s) x = memory s x /\
  memory (op_br instr s) x = memory s x /\
  memory (op_jmp instr s) x = memory s x /\
  memory (op_jsr instr s) x = memory s x /\
  memory (op_ld instr s) x = memory s x /\
  memory (op_ldi instr s) x = memory s x /\
  memory (op_ldr instr s) x = memory s x /\
  memory (op_lea instr s) x = memory s x /\
  memory (op_trap instr s) x = memory s x.
Proof.
  intros H1 H2.
  repeat split; unfold_ops; read_facts; split_ifs;
    rewrite ?update_flags_eq; state_simpl; use_read_frames; reflexivity.
Qed.

Lemma op_st_memory instr s x :
  x <> u16 (reg s R_PC + sign_extend (Z.land instr 0x1FF) 9) ->
  memory (op_st instr s) x = memory s x.
Proof. intros Hne. unfold op_st. state_simpl. now apply upd_other. Qed.

Lemma op_sti_memory instr s x :
  x <> MR_KBSR -> x <> MR_KBDR ->
  x <> u16 (fst (mem_read (reg s R_PC + sign_extend (Z.land instr 0x1FF) 9) s)) ->
  memory (op_sti instr s) x = memory s x.
Proof.
  intros H1 H2 Hne. unfold op_sti.
  pose proof (mem_read_memory
                (reg s R_PC + sign_extend (Z.land instr 0x1FF) 9) s x H1 H2) as Hm.
  destruct (mem_read _ s) as [a s2]. cbn [fst snd] in *.
  state_simpl. now rewrite upd_other.
Qed.

Lemma op_str_memory instr s x :
  x <> u16 (reg s (bits_8_6 instr) + sign_extend (Z.land instr 0x3F) 6) ->
  memory (op_str instr s) x = memory s x.
Proof. intros Hne. unfold op_str. state_simpl. now apply upd_other. Qed.

(** C8. An instruction leaves the word at every address other than
    0xFE00 and 0xFE02 as it was, unless it is ST, STI or STR and that
    address is the one it stores to; ADD, AND, NOT, the loads, LEA, BR, JMP,
    JSR and TRAP have no store address at all. *)
Theorem memory_changes_only_at_store_target s instr s1 s' a :
  fetch s = (instr, s1) ->
  step s = Ok s' ->
  a <> MR_KBSR -> a <> MR_KBDR ->
  (store_target instr s1 <> Some a -> memory s' a = memory s a) /\
  (~ In (opcode instr) [OP_ST; OP_STI; OP_STR] -> store_target instr s1 = None).
Proof.
  intros Hf Hs H1 H2.
  pose proof (step_case _ _ _ Hf) as Hc. rewrite Hs in Hc.
  pose proof (fetch_memory _ _ _ a Hf H1 H2) as Hm.
  destruct (memory_unchanged_non_store instr s1 a H1 H2)
    as (M1 & M2 & M3 & M4 & M5 & M6 & M7 & M8 & M9 & M10 & M11).
  split.
  - unfold store_target.
    inversion Hc as [E|E|E|E|E|E|E|E|E|E|E|E|E|E|E]; subst s'; rewrite E; eval_eqb;
      intros Hnt; try congruence.
    + rewrite op_st_memory; [exact Hm | congruence].
    + rewrite op_sti_memory; [exact Hm | assumption | assumption | congruence].
    + rewrite op_str_memory; [exact Hm | congruence].
  - unfold store_target. cbn [In]. intros Hn.
    destruct (Z.eqb_spec (opcode instr) OP_ST); [exfalso; apply Hn; auto|].
    destruct (Z.eqb_spec (opcode instr) OP_STI); [exfalso; apply Hn; auto|].
    destruct (Z.eqb_spec (opcode instr) OP_STR); [exfalso; apply Hn; auto|].
    reflexivity.
Qed.

End MemoryFrame.

Section WellFormed.

Context {W : Type} {HostW : Host W}.

Implicit Types s : state W.

Lemma upd_wf mem a v : wf_memory mem -> wf_memory (upd mem a (u16 v)).
Proof.
  intros Hwf x. unfold upd. destruct (x =? a); [apply u16_range | apply Hwf].
Qed.

Lemma mem_read_wf a s :
  wf_memory (memory s) -> wf_memory (memory (snd (mem_read a s))).
Proof.
  intros Hwf. unfold mem_read. destruct (u16 a =? MR_KBSR); [|exact Hwf].
  destruct (check_key (world s)) as [[|] w]; state_simpl.
  - destruct (getchar w) as [c w']. state_simpl. now repeat apply upd_wf.
  - now apply upd_wf.
Qed.

Lemma execute_wf instr s s' :
  wf_memory (memory s) -> execute instr s = Ok s' -> wf_memory (memory s').
Proof.
  intros Hwf Hx. pose proof (execute_case instr s) as Hc. rewrite Hx in Hc.
  inversion Hc; subst s'; unfold_ops;
    repeat match goal with
      | |- context [mem_read ?a ?s0] =>
          let Hw := fresh "Hw" in
          assert (Hw : wf_memory (memory (snd (mem_read a s0))))
            by (apply mem_read_wf; assumption);
          destruct (mem_read a s0) as [? ?]; cbn [snd] in Hw
      end;
    split_ifs; rewrite ?update_flags_eq; state_simpl;
    try apply upd_wf; assumption.
Qed.

Lemma step_wf s s' :
  wf_memory (memory s) -> step s = Ok s' -> wf_memory (memory s').
Proof.
  unfold step, fetch. intros Hwf Hs.
  pose proof (mem_read_wf (reg s R_PC) (set_reg R_PC (reg s R_PC + 1) s) Hwf) as Hw.
  destruct (mem_read _ _) as [instr s1]. cbn [snd] in Hw.
  eapply execute_wf; eassumption.
Qed.

Lemma reachable_wf s : reachable s -> wf_memory (memory s).
Proof.
  induction 1 as [mem w Hwf | s s' _ IH _ Hs].
  - exact Hwf.
  - eapply step_wf; eassumption.
Qed.

(** A fetched word is a 16-bit value, so its opcode is below 16. *)
Lemma fetch_opcode_range s instr s1 :
  wf_memory (memory s) -> fetch s = (instr, s1) -> 0 <= opcode instr < 16.
Proof.
  intros Hwf Hf.
  assert (Hi : 0 <= instr < 65536).
  { destruct (fetch_cases _ _ _ Hf) as [[-> | ->] | (-> & _)];
      [lia | lia | apply Hwf]. }
  unfold opcode. rewrite Z.shiftr_div_pow2 by lia. change (2 ^ 12) with 4096.
  split; [apply Z.div_pos; lia | apply Z.div_lt_upper_bound; lia].
Qed.

(** C7. In a state of the running loop, the turn of the loop calls
    [abort()] exactly when the fetched instruction has opcode 1000 (RTI) or
    1101 (reserved); the loop then makes no further fetch and the process
    ends on SIGABRT, with a nonzero status. *)
Theorem reserved_opcodes_abort s instr s1 :
  wf_memory (memory s) ->
  fetch s = (instr, s1) ->
  (step s = Aborted <-> opcode instr = OP_RTI \/ opcode instr = OP_RES) /\
  (opcode instr = OP_RTI \/ opcode instr = OP_RES ->
   running s = true ->
   forall fuel,
     main_loop (S fuel) s = Some (Signaled SIGABRT, s) /\
     process_status (Signaled SIGABRT) <> 0).
Proof.
  intros Hwf Hf.
  pose proof (fetch_opcode_range _ _ _ Hwf Hf) as Hop.
  pose proof (step_case _ _ _ Hf) as Hc.
  assert (Hiff : step s = Aborted <-> opcode instr = OP_RTI \/ opcode instr = OP_RES).
  { split.
    - intros Ha. rewrite Ha in Hc. inversion Hc as [| | | | | | | | | | | | | |Hn].
      cbn [In] in Hn.
      unfold OP_ADD, OP_AND, OP_NOT, OP_BR, OP_JMP, OP_JSR, OP_LD, OP_LDI,
        OP_LDR, OP_LEA, OP_ST, OP_STI, OP_STR, OP_TRAP, OP_RTI, OP_RES in *.
      lia.
    - intros [E | E]; step_at Hf E; reflexivity. }
  split; [exact Hiff|].
  intros Hr Hrun fuel. apply Hiff in Hr.
  split; [|discriminate].
  cbn [main_loop]. now rewrite Hrun, Hr.
Qed.

End WellFormed.

Section FlagInvariant.

Context {W : Type} {HostW : Host W}.

Implicit Types s : state W.

Lemma execute_one_flag instr s s' :
  one_flag (reg s R_COND) -> execute instr s = Ok s' -> one_flag (reg s' R_COND).
Proof.
  intros Hc Hx. pose proof (execute_case instr s) as Hcase. rewrite Hx in Hcase.
  inversion Hcase; subst s'; unfold_ops; read_facts; split_ifs;
    rewrite ?update_flags_eq; state_simpl;
    rewrite ?upd_same, ?upd_other by index_neq;
    first [ congruence
          | split_ifs; unfold one_flag; cbv; auto ].
Qed.

(** X20. In every state of the loop COND is exactly one of N, Z, P. *)
Lemma reachable_one_flag s : reachable s -> one_flag (reg s R_COND).
Proof.
  induction 1 as [mem w Hwf | s s' _ IH _ Hs].
  - right. left. reflexivity.
  - unfold step in Hs. destruct (fetch s) as [instr s1] eqn:Hf.
    apply (execute_one_flag instr s1); [|exact Hs].
    now rewrite (fetch_reg_other _ _ _ R_COND Hf) by discriminate.
Qed.

End FlagInvariant.

Section KeyboardRegisters.

Context {W : Type} {HostW : Host W}.

Implicit Types s : state W.

(** C4. A read of 0xFE00 with no key pending returns 0 and stores 0 at
    0xFE00; with a key pending it returns 0x8000 (bit 15 set) and latches
    the key byte into 0xFE02, where a following read finds it; a read of
    any other address returns the stored word and changes nothing. *)
Theorem mem_read_keyboard s :
  (forall w, check_key (world s) = (false, w) ->
     fst (mem_read MR_KBSR s) = 0 /\
     memory (snd (mem_read MR_KBSR s)) MR_KBSR = 0) /\
  (forall w c w', check_key (world s) = (true, w) -> getchar w = (c, w') ->
     0 <= c < 256 ->
     let s' := snd (mem_read MR_KBSR s) in
     fst (mem_read MR_KBSR s) = 0x8000 /\
     Z.testbit (fst (mem_read MR_KBSR s)) 15 = true /\
     memory s' MR_KBDR = c /\
     world s' = w' /\
     mem_read MR_KBDR s' = (c, s')) /\
  (forall a, 0 <= a < 65536 -> a <> MR_KBSR -> mem_read a s = (memory s a, s)).
Proof.
  split; [|split].
  - intros w Hk. unfold mem_read. change (u16 MR_KBSR =? MR_KBSR) with true.
    cbv iota. rewrite Hk. state_simpl. now rewrite upd_same.
  - intros w c w' Hk Hg Hc s'.
    assert (Hs' : s' = set_mem MR_KBDR c
                         (set_world w' (set_mem MR_KBSR (Z.shiftl 1 15) (set_world w s)))).
    { subst s'. unfold mem_read. change (u16 MR_KBSR =? MR_KBSR) with true.
      cbv iota. rewrite Hk. state_simpl. now rewrite Hg. }
    assert (Hv : fst (mem_read MR_KBSR s) = 0x8000).
    { unfold mem_read. change (u16 MR_KBSR =? MR_KBSR) with true.
      cbv iota. rewrite Hk. state_simpl. rewrite Hg. state_simpl.
      rewrite upd_other by discriminate. now rewrite upd_same. }
    assert (Hd : memory s' MR_KBDR = c).
    { rewrite Hs'. state_simpl. rewrite upd_same. apply u16_small. lia. }
    repeat split.
    + exact Hv.
    + now rewrite Hv.
    + exact Hd.
    + now rewrite Hs'.
    + rewrite mem_read_plain by discriminate.
      change (u16 MR_KBDR) with MR_KBDR. now rewrite Hd.
  - intros a Ha Hne. rewrite mem_read_plain; rewrite u16_small by assumption; auto.
Qed.

End KeyboardRegisters.

(** ** Sign extension *)

(** The test of [sign_extend] reads bit [bit_count - 1]. *)
Lemma sign_test (x n : Z) :
  1 <= n -> negb (Z.land (Z.shiftr x (n - 1)) 1 =? 0) = Z.testbit x (n - 1).
Proof.
  intros Hn.
  assert (Hb : Z.land (Z.shiftr x (n - 1)) 1 = Z.b2z (Z.testbit x (n - 1))).
  { change 1 with (Z.ones 1) at 2. rewrite Z.land_ones by lia.
    change (2 ^ 1) with 2. rewrite <- Z.bit0_mod, Z.shiftr_spec by lia.
    reflexivity. }
  rewrite Hb. destruct (Z.testbit x (n - 1)); reflexivity.
Qed.

Lemma u16_testbit (z i : Z) :
  0 <= i -> Z.testbit (u16 z) i = (i <? 16) && Z.testbit z i.
Proof.
  intros Hi. unfold u16. change 65536 with (2 ^ 16).
  destruct (Z.ltb_spec i 16).
  - now rewrite Z.mod_pow2_bits_low.
  - now rewrite Z.mod_pow2_bits_high.
Qed.

Lemma high_mask_testbit (n i : Z) :
  0 <= n -> 0 <= i ->
  Z.testbit (Z.shiftl 0xFFFF n) i = (n <=? i) && (i <? n + 16).
Proof.
  intros Hn Hi. rewrite Z.shiftl_spec by assumption.
  destruct (Z.leb_spec n i); cbn [andb].
  - change 0xFFFF with (Z.ones 16).
    destruct (Z.ltb_spec i (n + 16)).
    + apply Z.ones_spec_low. lia.
    + apply Z.ones_spec_high. lia.
  - apply Z.testbit_neg_r. lia.
Qed.

(** Bit by bit: below [n] the bits of [x], from [n] to 15 the sign bit (when
    [x] has no bit set there), above 15 the bits of [x]. *)
Lemma sign_extend_testbit (x n i : Z) :
  1 <= n <= 15 -> 0 <= i ->
  Z.testbit (sign_extend x n) i =
  if Z.testbit x (n - 1)
  then (i <? 16) && (Z.testbit x i || (n <=? i))
  else Z.testbit x i.
Proof.
  intros Hn Hi. unfold sign_extend. rewrite sign_test by lia.
  destruct (Z.testbit x (n - 1)); [|reflexivity].
  rewrite u16_testbit, Z.lor_spec, high_mask_testbit by lia.
  destruct (Z.ltb_spec i 16); [|reflexivity].
  replace (i <? n + 16) with true by (symmetry; apply Z.ltb_lt; lia).
  now rewrite andb_true_r.
Qed.

(** X2. Truncation to [n] bits undoes the extension: [sign_extend x n]
    and [x] agree modulo 2^n. *)
Lemma sign_extend_mod (x n : Z) :
  0 <= x < 65536 -> 1 <= n <= 15 ->
  sign_extend x n mod 2 ^ n = x mod 2 ^ n.
Proof.
  intros Hx Hn. apply Z.bits_inj'. intros i Hi.
  destruct (Z.ltb_spec i n).
  - rewrite !Z.mod_pow2_bits_low by lia.
    rewrite sign_extend_testbit by lia.
    destruct (Z.testbit x (n - 1)); [|reflexivity].
    replace (i <? 16) with true by (symmetry; apply Z.ltb_lt; lia).
    replace (n <=? i) with false by (symmetry; apply Z.leb_gt; lia).
    now rewrite orb_false_r.
  - now rewrite !Z.mod_pow2_bits_high by lia.
Qed.

(** X3. On a field of [n] bits, [sign_extend] keeps the bits below [n]
    and copies bit [n - 1] into bits 15..n. *)
Lemma sign_extend_replicates (x n i : Z) :
  1 <= n <= 15 -> 0 <= x < 2 ^ n -> 0 <= i < 16 ->
  Z.testbit (sign_extend x n) i =
  if i <? n then Z.testbit x i else Z.testbit x (n - 1).
Proof.
  intros Hn Hx Hi. rewrite sign_extend_testbit by lia.
  assert (Hhigh : n <= i -> Z.testbit x i = false).
  { intros Hle. destruct (Z.eq_dec x 0) as [-> | Hx0]; [apply Z.bits_0|].
    apply Z.bits_above_log2; [lia|].
    apply Z.lt_le_trans with n; [|assumption].
    apply Z.log2_lt_pow2; lia. }
  replace (i <? 16) with true by (symmetry; apply Z.ltb_lt; lia).
  destruct (Z.ltb_spec i n).
  - replace (n <=? i) with false by (symmetry; apply Z.leb_gt; lia).
    destruct (Z.testbit x (n - 1)); [now rewrite orb_false_r | reflexivity].
  - rewrite Hhigh by assumption.
    replace (n <=? i) with true by (symmetry; apply Z.leb_le; lia).
    destruct (Z.testbit x (n - 1)); reflexivity.
Qed.

(** The mask is ORed in exactly when the sign bit is set. *)
Lemma sign_extend_mask (x n : Z) :
  1 <= n <= 15 -> 0 <= x < 2 ^ n ->
  sign_extend x n =
  if Z.testbit x (n - 1) then Z.lor x (65536 - 2 ^ n) else x.
Proof.
  intros Hn Hx. unfold sign_extend. rewrite sign_test by lia.
  destruct (Z.testbit x (n - 1)); [|reflexivity].
  apply Z.bits_inj'. intros i Hi.
  rewrite u16_testbit, !Z.lor_spec, high_mask_testbit by lia.
  assert (Hm : Z.testbit (65536 - 2 ^ n) i = (n <=? i) && (i <? 16)).
  { replace (65536 - 2 ^ n) with (Z.shiftl (Z.ones (16 - n)) n).
    - rewrite Z.shiftl_spec by lia.
      destruct (Z.leb_spec n i); cbn [andb].
      + destruct (Z.ltb_spec i 16).
        * apply Z.ones_spec_low. lia.
        * apply Z.ones_spec_high. lia.
      + apply Z.testbit_neg_r. lia.
    - rewrite Z.shiftl_mul_pow2, Z.ones_equiv by lia.
      rewrite <- Z.sub_1_r, Z.mul_sub_distr_r, <- Z.pow_add_r by lia.
      replace (16 - n + n) with 16 by lia. change (2 ^ 16) with 65536. lia. }
  rewrite Hm.
  assert (Hhigh : 16 <= i -> Z.testbit x i = false).
  { intros Hle. destruct (Z.eq_dec x 0) as [-> | Hx0]; [apply Z.bits_0|].
    apply Z.bits_above_log2; [lia|].
    apply Z.lt_le_trans with n; [|lia].
    apply Z.log2_lt_pow2; lia. }
  destruct (Z.ltb_spec i 16); cbn [andb].
  - replace (i <? n + 16) with true by (symmetry; apply Z.ltb_lt; lia).
    now rewrite !andb_true_r.
  - rewrite Hhigh by assumption. now rewrite andb_false_r.
Qed.

(** The draft's helper returns its argument. *)
Lemma sign_extend_draft_id (x n : Z) : MainC.sign_extend x n = x.
Proof. unfold MainC.sign_extend. destruct (negb _); reflexivity. Qed.

(** C6. In the draft main.c the helper does not extend: on the 5-bit field
    11111 (that is -1) it returns 0x001F, where bit 4 is set but bits 15..5
    are not, while the helper of lc3.c returns 0xFFFF. *)
Theorem sign_extend_draft_does_not_extend :
  MainC.sign_extend 0x1F 5 = 0x1F /\
  Z.testbit 0x1F 4 = true /\
  Z.testbit (MainC.sign_extend 0x1F 5) 15 = false /\
  sign_extend 0x1F 5 = 0xFFFF.
Proof. repeat split. Qed.

(** ** The image loader *)

Lemma byte_testbit_high (b j : Z) : is_byte b -> 8 <= j -> Z.testbit b j = false.
Proof.
  intros Hb Hj. destruct (Z.eq_dec b 0) as [-> | Hne]; [apply Z.bits_0|].
  apply Z.bits_above_log2; [unfold is_byte in Hb; lia|].
  apply Z.lt_le_trans with 8; [|assumption].
  apply Z.log2_lt_pow2; unfold is_byte in Hb; [lia|]. change (2 ^ 8) with 256. lia.
Qed.

Lemma word_of_bytes_testbit (b0 b1 j : Z) :
  Z.testbit (word_of_bytes b0 b1) j = Z.testbit b0 j || Z.testbit b1 (j - 8).
Proof.
  unfold word_of_bytes. rewrite Z.lor_spec.
  destruct (Z.neg_nonneg_cases j) as [Hneg | Hpos].
  - rewrite !Z.testbit_neg_r by lia. reflexivity.
  - now rewrite Z.shiftl_spec by assumption.
Qed.

Lemma word_of_bytes_add (b0 b1 : Z) :
  is_byte b0 -> is_byte b1 -> word_of_bytes b0 b1 = b1 * 256 + b0.
Proof.
  intros H0 H1. unfold word_of_bytes.
  rewrite <- Z.lxor_lor, <- Z.add_nocarry_lxor.
  - rewrite Z.shiftl_mul_pow2 by lia. change (2 ^ 8) with 256. lia.
  - apply Z.bits_inj'. intros i Hi. rewrite Z.land_spec, Z.bits_0.
    rewrite Z.shiftl_spec by assumption.
    destruct (Z.lt_ge_cases i 8).
    + rewrite (Z.testbit_neg_r b1) by lia. apply andb_false_r.
    + now rewrite byte_testbit_high.
  - apply Z.bits_inj'. intros i Hi. rewrite Z.land_spec, Z.bits_0.
    rewrite Z.shiftl_spec by assumption.
    destruct (Z.lt_ge_cases i 8).
    + rewrite (Z.testbit_neg_r b1) by lia. apply andb_false_r.
    + now rewrite byte_testbit_high.
Qed.

(** Swapping the two bytes of a word read in host order gives the
    big-endian word. *)
Lemma swap16_word_of_bytes (b0 b1 : Z) :
  is_byte b0 -> is_byte b1 -> swap16 (word_of_bytes b0 b1) = b0 * 256 + b1.
Proof.
  intros H0 H1. rewrite <- (word_of_bytes_add b1 b0) by assumption.
  apply Z.bits_inj'. intros i Hi. unfold swap16.
  rewrite u16_testbit, Z.lor_spec, Z.shiftl_spec, Z.shiftr_spec by assumption.
  rewrite !word_of_bytes_testbit.
  replace (i + 8 - 8) with i by lia.
  destruct (Z.lt_ge_cases i 8).
  - replace (i <? 16) with true by (symmetry; apply Z.ltb_lt; lia).
    rewrite (Z.testbit_neg_r b0 (i - 8)), (Z.testbit_neg_r b1 (i - 8 - 8)) by lia.
    rewrite (byte_testbit_high b0 (i + 8)) by (assumption || lia).
    cbn [andb orb]. now rewrite orb_false_r.
  - rewrite (byte_testbit_high b1 i), (byte_testbit_high b0 (i + 8))
      by (assumption || lia).
    cbn [orb]. rewrite orb_false_r.
    destruct (Z.lt_ge_cases i 16).
    + replace (i <? 16) with true by (symmetry; apply Z.ltb_lt; lia).
      rewrite (Z.testbit_neg_r b1 (i - 8 - 8)) by lia.
      cbn [andb]. now rewrite orb_false_r.
    + replace (i <? 16) with false by (symmetry; apply Z.ltb_ge; lia).
      rewrite (byte_testbit_high b0 (i - 8)) by (assumption || lia).
      reflexivity.
Qed.


Lemma list_pair_ind (P : list Z -> Prop) :
  P [] -> (forall b, P [b]) ->
  (forall b0 b1 rest, P rest -> P (b0 :: b1 :: rest)) ->
  forall l, P l.
Proof.
  intros Hnil Hone Hpair l.
  cut (P l /\ forall b, P (b :: l)); [tauto|].
  induction l as [|a l [IH1 IH2]]; split; auto.
Qed.

Lemma raw_words_length (bytes : list Z) :
  List.length (raw_words bytes) = List.length (image_words bytes).
Proof.
  induction bytes as [| b | b0 b1 rest IH] using list_pair_ind;
    cbn [raw_words image_words List.length]; congruence.
Qed.

Lemma swap16_raw_words (bytes : list Z) :
  Forall is_byte bytes ->
  forall k, (k < List.length (raw_words bytes))%nat ->
  swap16 (nth k (raw_words bytes) 0) = nth k (image_words bytes) 0.
Proof.
  induction bytes as [| b | b0 b1 rest IH] using list_pair_ind;
    intros Hb k Hk; cbn [raw_words image_words List.length nth] in *; try lia.
  inversion Hb as [|? ? H0 Hb']; subst. inversion Hb' as [|? ? H1 Hb'']; subst.
  destruct k as [|k].
  - now apply swap16_word_of_bytes.
  - apply IH; [assumption | lia].
Qed.

Section LoaderFacts.

Variable fread_partial : Z -> Z -> Z.

Lemma fread_u16_spec (payload : list Z) :
  forall nmemb i mem,
    let r := fread_u16 fread_partial payload nmemb i mem in
    let n := Z.max 0 (Z.min nmemb (Z.of_nat (List.length (raw_words payload)))) in
    fst r = n /\
    (forall k, 0 <= k < n ->
       snd r (i + k) = nth (Z.to_nat k) (raw_words payload) 0) /\
    (forall a, a < i \/ i + n < a -> snd r a = mem a) /\
    (Nat.even (List.length payload) = true \/ n = nmemb -> snd r (i + n) = mem (i + n)).
Proof.
  induction payload as [| b | b0 b1 rest IH] using list_pair_ind;
    intros nmemb i mem r n.
  - subst r n. cbn [fread_u16 raw_words List.length].
    destruct (nmemb <=? 0); cbn [fst snd]; repeat split; intros; auto; lia.
  - subst r n. cbn [fread_u16 raw_words List.length].
    destruct (Z.leb_spec nmemb 0); cbn [fst snd]; repeat split; intros; auto; try lia.
    + apply upd_other. lia.
    + cbn in *. intuition (try discriminate; lia).
  - subst r n. cbn [fread_u16 raw_words List.length].
    destruct (Z.leb_spec nmemb 0); cbn [fst snd].
    { repeat split; intros; auto; lia. }
    specialize (IH (nmemb - 1) (i + 1) (upd mem i (word_of_bytes b0 b1))).
    destruct (fread_u16 fread_partial rest (nmemb - 1) (i + 1) _) as [len mem'].
    cbn [fst snd] in *.
    destruct IH as (Hlen & Hget & Hframe & Hlast).
    set (L := Z.of_nat (List.length (raw_words rest))) in *.
    assert (HL : 0 <= L) by (subst L; lia).
    rewrite Nat2Z.inj_succ. fold L.
    assert (Hn : Z.max 0 (Z.min nmemb (Z.succ L)) = len + 1) by lia.
    rewrite <- Hlen in Hget, Hframe, Hlast.
    rewrite Hn. split; [reflexivity|]. split; [|split].
    + intros k Hk. destruct (Z.eq_dec k 0) as [-> | Hk0].
      * rewrite Z.add_0_r, Hframe by lia. cbn [Z.to_nat nth]. apply upd_same.
      * replace (i + k) with (i + 1 + (k - 1)) by lia.
        rewrite Hget by lia.
        replace (Z.to_nat k) with (S (Z.to_nat (k - 1))) by lia. reflexivity.
    + intros a Ha. rewrite Hframe by lia. apply upd_other. lia.
    + intros Hcase. replace (i + (len + 1)) with (i + 1 + len) by lia.
      rewrite Hlast.
      * apply upd_other. lia.
      * destruct Hcase as [He | He]; [left; exact He | right; lia].
Qed.

Lemma swap_loop_spec (len : nat) :
  forall i mem a,
    swap_loop len i mem a =
    if (i <=? a) && (a <? i + Z.of_nat len) then swap16 (mem a) else mem a.
Proof.
  induction len as [|len IH]; intros i mem a; cbn [swap_loop].
  - replace ((i <=? a) && (a <? i + Z.of_nat 0)) with false; [reflexivity|].
    symmetry. apply andb_false_iff. rewrite Z.leb_gt, Z.ltb_ge. lia.
  - rewrite IH. unfold upd.
    destruct (Z.eqb_spec a i) as [-> | Hne].
    + replace (i + 1 <=? i) with false by (symmetry; apply Z.leb_gt; lia).
      replace ((i <=? i) && (i <? i + Z.of_nat (S len))) with true; [reflexivity|].
      symmetry. apply andb_true_iff. rewrite Z.leb_le, Z.ltb_lt. lia.
    + replace ((i + 1 <=? a) && (a <? i + 1 + Z.of_nat len))
        with ((i <=? a) && (a <? i + Z.of_nat (S len))); [reflexivity|].
      apply eq_true_iff_eq. rewrite !andb_true_iff, !Z.leb_le, !Z.ltb_lt. lia.
Qed.

(** With an origin other than 0, the loader stores the words of the image
    from [origin] on, as many as the file holds and as fit below 2^16, and
    changes no word before [origin] or after the last one stored plus one;
    the one word after the last one stored is left alone too when the file
    has no odd byte at its end or memory is full. *)
Lemma read_image_file_loads (b0 b1 : Z) (payload : list Z) (mem : Z -> Z) :
  is_byte b0 -> is_byte b1 -> Forall is_byte payload ->
  b0 * 256 + b1 <> 0 ->
  let origin := b0 * 256 + b1 in
  let n := Z.min (Z.of_nat (List.length (image_words payload))) (65536 - origin) in
  exists mem',
    read_image_file fread_partial (b0 :: b1 :: payload) mem = Some mem' /\
    (forall k, 0 <= k < n ->
       mem' (origin + k) = nth (Z.to_nat k) (image_words payload) 0) /\
    (forall a, a < origin \/ origin + n < a -> mem' a = mem a) /\
    (Nat.even (List.length payload) = true \/ n = 65536 - origin ->
     mem' (origin + n) = mem (origin + n)).
Proof.
  intros H0 H1 Hp Hne origin n.
  assert (Ho : 0 < origin < 65536) by (unfold is_byte in *; subst origin; lia).
  unfold read_image_file.
  rewrite swap16_word_of_bytes by assumption. fold origin.
  assert (Hmax : u16 (MEMORY_MAX - origin) = 65536 - origin)
    by (apply u16_small; change MEMORY_MAX with 65536; lia).
  rewrite Hmax.
  pose proof (fread_u16_spec payload (65536 - origin) origin mem) as Hspec.
  destruct (fread_u16 fread_partial payload (65536 - origin) origin mem) as [len mem1].
  cbn [fst snd] in Hspec. rewrite raw_words_length in Hspec.
  replace (Z.max 0 (Z.min (65536 - origin) (Z.of_nat (List.length (image_words payload)))))
    with n in Hspec by (subst n; lia).
  destruct Hspec as (Hlen & Hget & Hframe & Hlast). subst len.
  assert (Hn : 0 <= n) by (subst n; lia).
  eexists. split; [reflexivity|]. split; [|split].
  - intros k Hk. rewrite swap_loop_spec, Z2Nat.id by assumption.
    replace ((origin <=? origin + k) && (origin + k <? origin + n)) with true.
    + rewrite Hget by assumption. apply swap16_raw_words; [assumption|].
      rewrite raw_words_length. subst n. lia.
    + symmetry. apply andb_true_iff. rewrite Z.leb_le, Z.ltb_lt. lia.
  - intros a Ha. rewrite swap_loop_spec, Z2Nat.id by assumption.
    replace ((origin <=? a) && (a <? origin + n)) with false.
    + now apply Hframe.
    + symmetry. apply andb_false_iff. rewrite Z.leb_gt, Z.ltb_ge. lia.
  - intros Hcase. rewrite swap_loop_spec, Z2Nat.id by assumption.
    replace ((origin <=? origin + n) && (origin + n <? origin + n)) with false.
    + apply Hlast. destruct Hcase as [He | He]; [left; exact He | right; lia].
    + symmetry. apply andb_false_iff. rewrite Z.leb_gt, Z.ltb_ge. lia.
Qed.

End LoaderFacts.

(** ** The loader at origin 0 *)

(** C3. For a file with origin 0x0000 and the single word 0x1234,
    [max_read] is [(uint16_t) 65536 = 0]: nothing is read and memory stays
    as it was, while the same word with origin 0x3000 is loaded. *)
Theorem read_image_file_origin_zero (fread_partial : Z -> Z -> Z) (mem : Z -> Z) :
  u16 (MEMORY_MAX - swap16 (word_of_bytes 0x00 0x00)) = 0 /\
  read_image_file fread_partial [0x00; 0x00; 0x12; 0x34] mem = Some mem /\
  exists mem',
    read_image_file fread_partial [0x30; 0x00; 0x12; 0x34] mem = Some mem' /\
    mem' 0x3000 = 0x1234.
Proof.
  split; [reflexivity|]. split; [reflexivity|].
  eexists. split; [reflexivity|]. reflexivity.
Qed.

(** ** Concrete runs *)


(** C2, as first stated: with [R[BaseR]] taken before the instruction,
    the formula gives 0x1234 for JSRR R7, but the PC becomes 0x3001. *)
Lemma pc_claimed_fails_for_jsrr_r7 :
  exists instr s1 s',
    fetch jsrr_r7_state = (instr, s1) /\
    step jsrr_r7_state = Ok s' /\
    reg s' R_PC = 0x3001 /\
    u16 (reg jsrr_r7_state R_PC + 1 + Delta_claimed instr jsrr_r7_state) = 0x1234 /\
    reg s' R_PC <> u16 (reg jsrr_r7_state R_PC + 1 + Delta_claimed instr jsrr_r7_state).
Proof.
  exists 0x41C0, (snd (fetch jsrr_r7_state)),
    (op_jsr 0x41C0 (snd (fetch jsrr_r7_state))).
  repeat split; try reflexivity. vm_compute. discriminate.
Qed.

(** ADD R1, R1, #5 at reset. *)
Lemma flags_follow_written_register_witness :
  fetch (boot 0x1265 []) = (0x1265, snd (fetch (boot 0x1265 []))) /\
  written_rd 0x1265 = Some R_R1 /\
  exists s',
    step (boot 0x1265 []) = Ok s' /\ flags_agree (reg s' R_COND) (reg s' R_R1).
Proof.
  split; [reflexivity|]. split; [reflexivity|].
  apply (flags_follow_written_register
           (boot 0x1265 []) 0x1265 (snd (fetch (boot 0x1265 [])))); reflexivity.
Defined.

Lemma pc_after_step_witness :
  fetch jsrr_r7_state = (0x41C0, snd (fetch jsrr_r7_state)) /\
  step jsrr_r7_state = Ok (op_jsr 0x41C0 (snd (fetch jsrr_r7_state))) /\
  reg (op_jsr 0x41C0 (snd (fetch jsrr_r7_state))) R_PC =
    u16 (reg jsrr_r7_state R_PC + 1 + Delta 0x41C0 jsrr_r7_state).
Proof.
  split; [reflexivity|]. split; [reflexivity|].
  apply (pc_after_step jsrr_r7_state 0x41C0 (snd (fetch jsrr_r7_state))); reflexivity.
Defined.

(** A read of the status register with the key [A] pending. *)
Lemma mem_read_keyboard_witness :
  check_key (world (boot 0 [0x41])) = (true, mkConsole [0x41] []) /\
  getchar (mkConsole [0x41] []) = (0x41, mkConsole [] []) /\
  0 <= 0x41 < 256 /\
  fst (mem_read MR_KBSR (boot 0 [0x41])) = 0x8000 /\
  Z.testbit (fst (mem_read MR_KBSR (boot 0 [0x41]))) 15 = true /\
  memory (snd (mem_read MR_KBSR (boot 0 [0x41]))) MR_KBDR = 0x41 /\
  world (snd (mem_read MR_KBSR (boot 0 [0x41]))) = mkConsole [] [] /\
  mem_read MR_KBDR (snd (mem_read MR_KBSR (boot 0 [0x41]))) =
    (0x41, snd (mem_read MR_KBSR (boot 0 [0x41]))).
Proof.
  split; [reflexivity|]. split; [reflexivity|]. split; [lia|].
  apply (proj1 (proj2 (mem_read_keyboard (boot 0 [0x41])))
           (mkConsole [0x41] []) 0x41 (mkConsole [] [])); [reflexivity | reflexivity | lia].
Defined.

(** BRz +1 at reset, where COND = Z: taken. *)
Lemma br_taken_iff_flags_witness :
  fetch (boot 0x0401 []) = (0x0401, snd (fetch (boot 0x0401 []))) /\
  opcode 0x0401 = OP_BR /\
  exists s',
    step (boot 0x0401 []) = Ok s' /\
    reg s' R_COND = reg (boot 0x0401 []) R_COND /\
    (Z.land (bits_11_9 0x0401) (reg (boot 0x0401 []) R_COND) <> 0 ->
     reg s' R_PC =
       u16 (reg (boot 0x0401 []) R_PC + 1 + sign_extend (Z.land 0x0401 0x1FF) 9)) /\
    (Z.land (bits_11_9 0x0401) (reg (boot 0x0401 []) R_COND) = 0 ->
     reg s' R_PC = u16 (reg (boot 0x0401 []) R_PC + 1)) /\
    (bits_11_9 0x0401 = 0 -> reg s' R_PC = u16 (reg (boot 0x0401 []) R_PC + 1)) /\
    (bits_11_9 0x0401 = 7 -> one_flag (reg (boot 0x0401 []) R_COND) ->
     reg s' R_PC =
       u16 (reg (boot 0x0401 []) R_PC + 1 + sign_extend (Z.land 0x0401 0x1FF) 9)).
Proof.
  split; [reflexivity|]. split; [reflexivity|].
  apply (br_taken_iff_flags (boot 0x0401 []) 0x0401 (snd (fetch (boot 0x0401 []))));
    reflexivity.
Defined.

(** RTI at reset. *)
Lemma reserved_opcodes_abort_witness :
  wf_memory (memory (boot 0x8000 [])) /\
  fetch (boot 0x8000 []) = (0x8000, snd (fetch (boot 0x8000 []))) /\
  (step (boot 0x8000 []) = Aborted <->
   opcode 0x8000 = OP_RTI \/ opcode 0x8000 = OP_RES) /\
  main_loop 1 (boot 0x8000 []) = Some (Signaled SIGABRT, boot 0x8000 []).
Proof.
  assert (Hwf : wf_memory (memory (boot 0x8000 []))).
  { intros a. unfold boot, reset. state_simpl. unfold upd.
    destruct (a =? PC_START); lia. }
  split; [exact Hwf|]. split; [reflexivity|].
  pose proof (reserved_opcodes_abort
                (boot 0x8000 []) 0x8000 (snd (fetch (boot 0x8000 []))) Hwf eq_refl)
    as [Hiff Hloop].
  split; [exact Hiff|].
  apply (Hloop (or_introl eq_refl) eq_refl 0%nat).
Defined.

(** ST R1, #1 at reset stores to 0x3002 and leaves 0x4000 alone. *)
Lemma memory_changes_only_at_store_target_witness :
  fetch (boot 0x3201 []) = (0x3201, snd (fetch (boot 0x3201 []))) /\
  step (boot 0x3201 []) = Ok (op_st 0x3201 (snd (fetch (boot 0x3201 [])))) /\
  0x4000 <> MR_KBSR /\ 0x4000 <> MR_KBDR /\
  store_target 0x3201 (snd (fetch (boot 0x3201 []))) = Some 0x3002 /\
  memory (op_st 0x3201 (snd (fetch (boot 0x3201 [])))) 0x4000 =
    memory (boot 0x3201 []) 0x4000.
Proof.
  split; [reflexivity|]. split; [reflexivity|].
  split; [discriminate|]. split; [discriminate|]. split; [reflexivity|].
  apply (memory_changes_only_at_store_target
           (boot 0x3201 []) 0x3201 (snd (fetch (boot 0x3201 [])))
           (op_st 0x3201 (snd (fetch (boot 0x3201 [])))) 0x4000);
    [reflexivity | reflexivity | discriminate | discriminate | discriminate].
Defined.

(** TRAP 0xFF at reset. *)
Lemma unknown_trap_only_clobbers_r7_witness :
  fetch (boot 0xF0FF []) = (0xF0FF, snd (fetch (boot 0xF0FF []))) /\
  opcode 0xF0FF = OP_TRAP /\
  ~ In (Z.land 0xF0FF 0xFF) standard_traps /\
  exists s',
    step (boot 0xF0FF []) = Ok s' /\
    reg s' R_R7 = u16 (reg (boot 0xF0FF []) R_PC + 1) /\
    reg s' R_PC = u16 (reg (boot 0xF0FF []) R_PC + 1) /\
    (forall r, r <> R_R7 -> r <> R_PC -> reg s' r = reg (boot 0xF0FF []) r) /\
    reg s' R_COND = reg (boot 0xF0FF []) R_COND /\
    (forall a, memory s' a = memory (boot 0xF0FF []) a) /\
    world s' = world (boot 0xF0FF []) /\
    running s' = running (boot 0xF0FF []) /\
    (running (boot 0xF0FF []) = true ->
     forall fuel, main_loop (S fuel) (boot 0xF0FF []) = main_loop fuel s') /\
    fetch s' =
    mem_read (u16 (reg (boot 0xF0FF []) R_PC + 1))
      (set_reg R_PC (u16 (reg (boot 0xF0FF []) R_PC + 1) + 1) s') /\
    (running (boot 0xF0FF []) = true ->
     forall fuel,
       main_loop (S (S fuel)) (boot 0xF0FF []) =
       match step s' with
       | Aborted => Some (Signaled SIGABRT, s')
       | Ok s'' => main_loop fuel s''
       end).
Proof.
  assert (Hn : ~ In (Z.land 0xF0FF 0xFF) standard_traps).
  { cbn [In standard_traps]. intros Hin.
    repeat (destruct Hin as [Hin | Hin]; [discriminate Hin|]). exact Hin. }
  split; [reflexivity|]. split; [reflexivity|]. split; [exact Hn|].
  apply (unknown_trap_only_clobbers_r7
           (boot 0xF0FF []) 0xF0FF (snd (fetch (boot 0xF0FF []))));
    [reflexivity | reflexivity | exact Hn].
Defined.

Lemma jsrr_r7_continues_at_next_word_witness :
  fetch jsrr_r7_state = (0x41C0, snd (fetch jsrr_r7_state)) /\
  opcode 0x41C0 = OP_JSR /\
  bit_11 0x41C0 = 0 /\
  bits_8_6 0x41C0 = R_R7 /\
  exists s',
    step jsrr_r7_state = Ok s' /\
    reg s' R_R7 = u16 (reg jsrr_r7_state R_PC + 1) /\
    reg s' R_PC = u16 (reg jsrr_r7_state R_PC + 1) /\
    fetch s' =
      mem_read (u16 (reg jsrr_r7_state R_PC + 1))
        (set_reg R_PC (u16 (reg jsrr_r7_state R_PC + 1) + 1) s').
Proof.
  split; [reflexivity|]. split; [reflexivity|].
  split; [reflexivity|]. split; [reflexivity|].
  apply (jsrr_r7_continues_at_next_word
           jsrr_r7_state 0x41C0 (snd (fetch jsrr_r7_state))); reflexivity.
Defined.

(** * Further properties of the code *)

Lemma word_split (x : Z) :
  0 <= x < 65536 -> is_byte (x mod 256) /\ is_byte (x / 256) /\
  x = word_of_bytes (x mod 256) (x / 256).
Proof.
  intros Hx.
  assert (H0 : is_byte (x mod 256)) by (unfold is_byte; apply Z.mod_pos_bound; lia).
  assert (H1 : is_byte (x / 256)).
  { unfold is_byte. split; [apply Z.div_pos; lia | apply Z.div_lt_upper_bound; lia]. }
  repeat split; try apply H0; try apply H1.
  rewrite word_of_bytes_add by assumption.
  pose proof (Z.div_mod x 256 ltac:(lia)). lia.
Qed.

(** X1. [swap16] exchanges the two bytes of a 16-bit word; the result is a
    16-bit word, and swapping twice gives the word back. *)
Theorem swap16_exchanges_bytes (x : Z) :
  0 <= x < 65536 ->
  swap16 x = (x mod 256) * 256 + x / 256 /\
  0 <= swap16 x < 65536 /\
  swap16 (swap16 x) = x.
Proof.
  intros Hx. destruct (word_split x Hx) as (H0 & H1 & Hw).
  assert (Hs : swap16 x = (x mod 256) * 256 + x / 256).
  { rewrite Hw at 1. now apply swap16_word_of_bytes. }
  split; [exact Hs|]. split; [apply u16_range|].
  rewrite Hs, <- (word_of_bytes_add (x / 256) (x mod 256)) by assumption.
  rewrite swap16_word_of_bytes by assumption.
  pose proof (Z.div_mod x 256 ltac:(lia)). lia.
Qed.

Lemma small_testbit_high (x n i : Z) :
  0 <= x < 2 ^ n -> n <= i -> Z.testbit x i = false.
Proof.
  intros Hx Hi. destruct (Z.eq_dec x 0) as [-> | Hne]; [apply Z.bits_0|].
  assert (0 < n).
  { destruct (Z.lt_ge_cases 0 n); [assumption|].
    destruct (Z.eq_dec n 0) as [-> | ?]; [change (2 ^ 0) with 1 in Hx; lia|].
    rewrite Z.pow_neg_r in Hx by lia. lia. }
  apply Z.bits_above_log2; [lia|].
  apply Z.lt_le_trans with n; [|assumption].
  apply Z.log2_lt_pow2; lia.
Qed.

Lemma sign_bit_threshold (x n : Z) :
  1 <= n -> 0 <= x < 2 ^ n -> Z.testbit x (n - 1) = (2 ^ (n - 1) <=? x).
Proof.
  intros Hn Hx.
  assert (Hp : 2 ^ n = 2 * 2 ^ (n - 1)).
  { replace n with (Z.succ (n - 1)) at 1 by lia. apply Z.pow_succ_r. lia. }
  assert (Hpos : 0 < 2 ^ (n - 1)) by (apply Z.pow_pos_nonneg; lia).
  destruct (Z.leb_spec (2 ^ (n - 1)) x).
  - apply Z.testbit_true; [lia|].
    assert (x / 2 ^ (n - 1) = 1) as ->; [|reflexivity].
    symmetry. apply Z.div_unique with (x - 2 ^ (n - 1)); lia.
  - apply Z.testbit_false; [lia|]. now rewrite Z.div_small by lia.
Qed.

(** The value of [sign_extend] on a field: the two's-complement number
    the field stands for, as a 16-bit word. *)
Lemma sign_extend_value (x n : Z) :
  1 <= n <= 15 -> 0 <= x < 2 ^ n ->
  sign_extend x n = u16 (signed_field x n).
Proof.
  intros Hn Hx. rewrite sign_extend_mask by assumption. unfold signed_field.
  rewrite sign_bit_threshold by lia.
  assert (Hle : 2 ^ n <= 2 ^ 15) by (apply Z.pow_le_mono_r; lia).
  change (2 ^ 15) with 32768 in Hle.
  destruct (2 ^ (n - 1) <=? x).
  - rewrite <- Z.lxor_lor, <- Z.add_nocarry_lxor.
    + unfold u16. apply Z.mod_unique with (-1); lia.
    + apply Z.bits_inj'. intros i Hi. rewrite Z.land_spec, Z.bits_0.
      destruct (Z.lt_ge_cases i n).
      * replace (65536 - 2 ^ n) with (2 ^ n * (2 ^ (16 - n) - 1)).
        -- rewrite Z.mul_comm, Z.mul_pow2_bits_low by assumption. apply andb_false_r.
        -- rewrite Z.mul_sub_distr_l, <- Z.pow_add_r by lia.
           replace (n + (16 - n)) with 16 by lia. change (2 ^ 16) with 65536. lia.
      * now rewrite (small_testbit_high x n i).
    + apply Z.bits_inj'. intros i Hi. rewrite Z.land_spec, Z.bits_0.
      destruct (Z.lt_ge_cases i n).
      * replace (65536 - 2 ^ n) with (2 ^ n * (2 ^ (16 - n) - 1)).
        -- rewrite Z.mul_comm, Z.mul_pow2_bits_low by assumption. apply andb_false_r.
        -- rewrite Z.mul_sub_distr_l, <- Z.pow_add_r by lia.
           replace (n + (16 - n)) with 16 by lia. change (2 ^ 16) with 65536. lia.
      * now rewrite (small_testbit_high x n i).
  - symmetry. apply u16_small. lia.
Qed.

Lemma u16_add_r (a b : Z) : u16 (a + u16 b) = u16 (a + b).
Proof. unfold u16. apply Zplus_mod_idemp_r. Qed.

Lemma u16_lnot (y : Z) : u16 (Z.lnot (u16 y)) = u16 (Z.lnot y).
Proof.
  unfold u16. replace (Z.lnot (y mod 65536)) with (-1 - y mod 65536)
    by (unfold Z.lnot; lia).
  replace (Z.lnot y) with (-1 - y) by (unfold Z.lnot; lia).
  apply Zminus_mod_idemp_r.
Qed.

Lemma land_ones_range (x n : Z) : 0 <= n -> 0 <= Z.land x (Z.ones n) < 2 ^ n.
Proof.
  intros Hn. rewrite Z.land_ones by assumption.
  apply Z.mod_pos_bound. apply Z.pow_pos_nonneg; lia.
Qed.

Lemma imm5_range (instr : Z) : 0 <= Z.land instr 0x1F < 2 ^ 5.
Proof. apply (land_ones_range instr 5). lia. Qed.

Lemma field9_range (instr : Z) : 0 <= Z.land instr 0x1FF < 2 ^ 9.
Proof. apply (land_ones_range instr 9). lia. Qed.

Lemma field6_range (instr : Z) : 0 <= Z.land instr 0x3F < 2 ^ 6.
Proof. apply (land_ones_range instr 6). lia. Qed.

Lemma field11_range (instr : Z) : 0 <= Z.land instr 0x7FF < 2 ^ 11.
Proof. apply (land_ones_range instr 11). lia. Qed.

Section Alu.

Context {W : Type} {HostW : Host W}.

Implicit Types s : state W.

(** What a fetched instruction other than BR and RTI leaves of the state:
    the fetch was a plain read. *)
Lemma fetch_plain s instr s1 :
  fetch s = (instr, s1) ->
  opcode instr <> OP_BR -> opcode instr <> OP_RTI ->
  memory s1 = memory s /\ world s1 = world s /\
  instr = memory s (u16 (reg s R_PC)).
Proof.
  intros Hf Hb Hr. destruct (fetch_cases _ _ _ Hf) as [Hk | (Hi & Hm & Hw)]; [|auto].
  apply opcode_of_kbsr_read in Hk. tauto.
Qed.

Lemma step_add s instr s1 :
  fetch s = (instr, s1) -> opcode instr = OP_ADD -> step s = Ok (op_add instr s1).
Proof. intros Hf E. step_at Hf E. reflexivity. Qed.

Lemma step_not s instr s1 :
  fetch s = (instr, s1) -> opcode instr = OP_NOT ->
  step s = Ok (op_not instr s1) /\
  reg (op_not instr s1) (bits_11_9 instr) = u16 (Z.lnot (reg s (bits_8_6 instr))).
Proof.
  intros Hf E. split; [step_at Hf E; reflexivity|].
  unfold op_not. rewrite update_flags_reg by index_neq.
  rewrite reg_set_reg_same.
  now rewrite (fetch_reg_other _ _ _ _ Hf) by index_neq.
Qed.

(** X4. ADD puts into DR the sum, modulo 2^16, of SR1 and either SR2
    (bit 5 clear) or the 5-bit immediate read as a two's-complement number,
    which lies between -16 and 15. *)
Theorem add_adds_signed_immediate s instr s1 :
  fetch s = (instr, s1) ->
  opcode instr = OP_ADD ->
  exists s',
    step s = Ok s' /\
    reg s' (bits_11_9 instr) =
      u16 (reg s (bits_8_6 instr) +
           if bit_5 instr =? 0 then reg s (Z.land instr 0x7)
           else signed_field (Z.land instr 0x1F) 5) /\
    -16 <= signed_field (Z.land instr 0x1F) 5 <= 15.
Proof.
  intros Hf E. exists (op_add instr s1).
  split; [now apply step_add|]. split.
  - unfold op_add. rewrite update_flags_reg by index_neq.
    destruct (bit_5 instr =? 0); cbn [negb]; rewrite reg_set_reg_same.
    + rewrite !(fetch_reg_other _ _ _ _ Hf); [reflexivity | |index_neq].
      pose proof (land_7_range instr). unfold R_PC. lia.
    + rewrite (fetch_reg_other _ _ _ _ Hf) by index_neq.
      rewrite sign_extend_value by (lia || apply imm5_range).
      apply u16_add_r.
  - pose proof (imm5_range instr) as Hr. unfold signed_field.
    change (2 ^ (5 - 1)) with 16. change (2 ^ 5) with 32 in *.
    destruct (16 <=? Z.land instr 31) eqn:Hc;
      [apply Z.leb_le in Hc | apply Z.leb_gt in Hc]; lia.
Qed.

(** X5. A NOT followed by a NOT of its result gives back the word the
    first one read. *)
Theorem not_twice_restores s instr s1 s' instr' s1' :
  fetch s = (instr, s1) ->
  opcode instr = OP_NOT ->
  step s = Ok s' ->
  fetch s' = (instr', s1') ->
  opcode instr' = OP_NOT ->
  bits_8_6 instr' = bits_11_9 instr ->
  exists s'',
    step s' = Ok s'' /\
    reg s'' (bits_11_9 instr') = u16 (reg s (bits_8_6 instr)).
Proof.
  intros Hf E Hs Hf' E' Hsrc.
  destruct (step_not _ _ _ Hf E) as [Hs1 Hv].
  rewrite Hs in Hs1. inversion Hs1; subst s'.
  destruct (step_not _ _ _ Hf' E') as [Hs2 Hv'].
  exists (op_not instr' s1'). split; [exact Hs2|].
  rewrite Hv', Hsrc, Hv, u16_lnot.
  f_equal. unfold Z.lnot. lia.
Qed.

(** X6. After JSR in either form, R7 holds the address of the word that
    follows it, and a JMP through R7 fetched next (RET) puts that address
    into PC. *)
Theorem jsr_then_ret_returns s instr s1 s' instr' s1' :
  fetch s = (instr, s1) ->
  opcode instr = OP_JSR ->
  step s = Ok s' ->
  fetch s' = (instr', s1') ->
  opcode instr' = OP_JMP ->
  bits_8_6 instr' = R_R7 ->
  reg s' R_R7 = u16 (reg s R_PC + 1) /\
  exists s'',
    step s' = Ok s'' /\
    reg s'' R_PC = u16 (reg s R_PC + 1).
Proof.
  intros Hf E Hs Hf' E' Hb.
  assert (Hs1 : step s = Ok (op_jsr instr s1)) by (step_at Hf E; reflexivity).
  rewrite Hs in Hs1. inversion Hs1; subst s'.
  assert (H7 : reg (op_jsr instr s1) R_R7 = u16 (reg s R_PC + 1)).
  { unfold op_jsr. destruct (bit_11 instr =? 0);
      rewrite reg_set_reg_other by discriminate;
      rewrite reg_set_reg_same, (fetch_pc _ _ _ Hf); apply u16_idem. }
  split; [exact H7|].
  exists (op_jmp instr' s1'). split; [step_at Hf' E'; reflexivity|].
  unfold op_jmp. rewrite reg_set_reg_same, Hb.
  rewrite (fetch_reg_other _ _ _ _ Hf') by discriminate.
  rewrite H7. apply u16_idem.
Qed.

End Alu.

Section Memory.

Context {W : Type} {HostW : Host W}.

Implicit Types s : state W.

(** X7. A read after a write to the same address returns the word
    written and changes nothing, at every address but 0xFE00; there the
    read answers with the keyboard status, 0 or 0x8000, whatever was
    written. *)
Theorem mem_write_then_read a v s :
  (u16 a <> MR_KBSR ->
   mem_read a (mem_write a v s) = (u16 v, mem_write a v s)) /\
  (u16 a = MR_KBSR ->
   fst (mem_read a (mem_write a v s)) = 0 \/
   fst (mem_read a (mem_write a v s)) = 0x8000).
Proof.
  split.
  - intros Hne. rewrite mem_read_plain by assumption.
    unfold mem_write. state_simpl. now rewrite upd_same.
  - intros He. now apply mem_read_kbsr_value.
Qed.

Lemma step_st s instr s1 :
  fetch s = (instr, s1) -> opcode instr = OP_ST ->
  step s = Ok (op_st instr s1) /\
  reg (op_st instr s1) = reg s1 /\
  forall x,
    memory (op_st instr s1) x =
    if x =? u16 (reg s R_PC + 1 + sign_extend (Z.land instr 0x1FF) 9)
    then u16 (reg s (bits_11_9 instr)) else memory s x.
Proof.
  intros Hf E. split; [step_at Hf E; reflexivity|]. split; [reflexivity|].
  destruct (fetch_plain _ _ _ Hf) as (Hm & _ & _); [rewrite E; discriminate ..|].
  intros x. unfold op_st. state_simpl. unfold upd.
  rewrite (fetch_pc _ _ _ Hf), u16_add_l, Hm.
  now rewrite (fetch_reg_other _ _ _ _ Hf) by index_neq.
Qed.

(** X8. ST followed by an LD whose address is the one ST stored to loads
    the stored register value, when that address is not 0xFE00. *)
Theorem st_then_ld_round_trip s instr s1 s' instr' s1' :
  fetch s = (instr, s1) ->
  opcode instr = OP_ST ->
  step s = Ok s' ->
  fetch s' = (instr', s1') ->
  opcode instr' = OP_LD ->
  u16 (reg s' R_PC + 1 + sign_extend (Z.land instr' 0x1FF) 9) =
    u16 (reg s R_PC + 1 + sign_extend (Z.land instr 0x1FF) 9) ->
  u16 (reg s R_PC + 1 + sign_extend (Z.land instr 0x1FF) 9) <> MR_KBSR ->
  exists s'',
    step s' = Ok s'' /\
    reg s'' (bits_11_9 instr') = u16 (reg s (bits_11_9 instr)).
Proof.
  intros Hf E Hs Hf' E' Haddr Hdev.
  destruct (step_st _ _ _ Hf E) as (Hs1 & _ & Hmem).
  rewrite Hs in Hs1. inversion Hs1; subst s'. clear Hs1.
  destruct (fetch_plain _ _ _ Hf') as (Hm' & _ & _); [rewrite E'; discriminate ..|].
  exists (op_ld instr' s1'). split; [step_at Hf' E'; reflexivity|].
  assert (Ha : u16 (reg s1' R_PC + sign_extend (Z.land instr' 0x1FF) 9) =
               u16 (reg s R_PC + 1 + sign_extend (Z.land instr 0x1FF) 9)).
  { rewrite (fetch_pc _ _ _ Hf'), u16_add_l. exact Haddr. }
  unfold op_ld. rewrite mem_read_plain by (rewrite Ha; exact Hdev).
  rewrite update_flags_reg by index_neq.
  rewrite reg_set_reg_same, Ha, Hm', Hmem, Z.eqb_refl. apply u16_idem.
Qed.

Lemma step_sti s instr s1 :
  fetch s = (instr, s1) -> opcode instr = OP_STI ->
  u16 (reg s R_PC + 1 + sign_extend (Z.land instr 0x1FF) 9) <> MR_KBSR ->
  step s = Ok (op_sti instr s1) /\
  reg (op_sti instr s1) = reg s1 /\
  forall x,
    memory (op_sti instr s1) x =
    if x =? u16 (memory s (u16 (reg s R_PC + 1 + sign_extend (Z.land instr 0x1FF) 9)))
    then u16 (reg s (bits_11_9 instr)) else memory s x.
Proof.
  intros Hf E Hdev.
  destruct (fetch_plain _ _ _ Hf) as (Hm & _ & _); [rewrite E; discriminate ..|].
  assert (Ha : u16 (reg s1 R_PC + sign_extend (Z.land instr 0x1FF) 9) =
               u16 (reg s R_PC + 1 + sign_extend (Z.land instr 0x1FF) 9)).
  { rewrite (fetch_pc _ _ _ Hf). apply u16_add_l. }
  split; [step_at Hf E; reflexivity|].
  unfold op_sti. rewrite mem_read_plain by (rewrite Ha; exact Hdev).
  split; [reflexivity|].
  intros x. state_simpl. unfold upd. rewrite Ha, Hm.
  now rewrite (fetch_reg_other _ _ _ _ Hf) by index_neq.
Qed.

(** X9. STI followed by an LDI through the same pointer cell loads the
    stored register value, when neither the cell nor the address in it is
    0xFE00 and the cell does not point to itself. *)
Theorem sti_then_ldi_round_trip s instr s1 s' instr' s1' :
  let p := u16 (reg s R_PC + 1 + sign_extend (Z.land instr 0x1FF) 9) in
  let t := u16 (memory s p) in
  fetch s = (instr, s1) ->
  opcode instr = OP_STI ->
  step s = Ok s' ->
  fetch s' = (instr', s1') ->
  opcode instr' = OP_LDI ->
  u16 (reg s' R_PC + 1 + sign_extend (Z.land instr' 0x1FF) 9) = p ->
  p <> MR_KBSR -> t <> MR_KBSR -> t <> p ->
  exists s'',
    step s' = Ok s'' /\
    reg s'' (bits_11_9 instr') = u16 (reg s (bits_11_9 instr)).
Proof.
  intros p t Hf E Hs Hf' E' Haddr Hp Ht Htp.
  destruct (step_sti _ _ _ Hf E Hp) as (Hs1 & _ & Hmem). fold p in Hmem. fold t in Hmem.
  rewrite Hs in Hs1. inversion Hs1; subst s'. clear Hs1.
  destruct (fetch_plain _ _ _ Hf') as (Hm' & _ & _); [rewrite E'; discriminate ..|].
  exists (op_ldi instr' s1'). split; [step_at Hf' E'; reflexivity|].
  assert (Ha : u16 (reg s1' R_PC + sign_extend (Z.land instr' 0x1FF) 9) = p).
  { rewrite (fetch_pc _ _ _ Hf'), u16_add_l. exact Haddr. }
  assert (Hptr : memory s1' p = memory s p).
  { rewrite Hm', Hmem. apply Z.eqb_neq in Htp. rewrite Z.eqb_sym in Htp.
    now rewrite Htp. }
  unfold op_ldi. rewrite mem_read_plain by (rewrite Ha; exact Hp).
  rewrite Ha, Hptr.
  rewrite mem_read_plain by exact Ht.
  rewrite update_flags_reg by index_neq.
  rewrite reg_set_reg_same, Hm', Hmem. fold t. rewrite Z.eqb_refl. apply u16_idem.
Qed.

End Memory.

Ltac split_ifs_eq :=
  repeat match goal with
    | |- context [if ?a =? ?b then _ else _] => destruct (Z.eqb_spec a b)
    | |- context [if ?c then _ else _] => destruct c
    | |- context [let (_, _) := getchar ?w in _] => destruct (getchar w) as [? ?]
    end.

Section Frames.

Context {W : Type} {HostW : Host W}.

Implicit Types s : state W.

Lemma assigned_registers_cases instr :
  (In (opcode instr) [OP_ADD; OP_AND; OP_NOT; OP_LD; OP_LDI; OP_LDR; OP_LEA] /\
   assigned_registers instr = [bits_11_9 instr]) \/
  (opcode instr = OP_JSR /\ assigned_registers instr = [R_R7]) \/
  (opcode instr = OP_TRAP /\
   (Z.land instr 0xFF = TRAP_GETC \/ Z.land instr 0xFF = TRAP_IN) /\
   assigned_registers instr = [R_R7; R_R0]) \/
  (opcode instr = OP_TRAP /\
   Z.land instr 0xFF <> TRAP_GETC /\ Z.land instr 0xFF <> TRAP_IN /\
   assigned_registers instr = [R_R7]) \/
  (~ In (opcode instr)
       [OP_ADD; OP_AND; OP_NOT; OP_LD; OP_LDI; OP_LDR; OP_LEA; OP_JSR; OP_TRAP] /\
   assigned_registers instr = []).
Proof.
  unfold assigned_registers. cbn [In].
  repeat match goal with
    | |- context [?a =? ?b] => destruct (Z.eqb_spec a b)
    end; cbn [orb andb]; intuition (auto 12; try congruence).
Qed.

(** X10. An instruction leaves every general-purpose register as it was
    except the ones it assigns: the DR field for ADD, AND, NOT and the
    loads, R7 for JSR and TRAP, and R0 too for the traps GETC and IN. *)
Theorem registers_change_only_as_assigned s instr s1 s' r :
  fetch s = (instr, s1) ->
  step s = Ok s' ->
  0 <= r <= 7 ->
  ~ In r (assigned_registers instr) ->
  reg s' r = reg s r.
Proof.
  intros Hf Hs Hr Hn.
  pose proof (step_case _ _ _ Hf) as Hc. rewrite Hs in Hc.
  assert (Hpc : r <> R_PC) by (unfold R_PC; lia).
  assert (Hcond : r <> R_COND) by (unfold R_COND; lia).
  rewrite <- (fetch_reg_other _ _ _ r Hf Hpc).
  destruct (assigned_registers_cases instr)
    as [[Hop Ha] | [[Hop Ha] | [(Hop & Hcode & Ha) | [(Hop & Hg & Hi & Ha) | [Hop Ha]]]]];
    rewrite Ha in Hn; cbn [In] in Hn, Hop;
    inversion Hc as [E|E|E|E|E|E|E|E|E|E|E|E|E|E|E]; subst s';
    try solve [exfalso; rewrite E in Hop; intuition discriminate];
    try solve [exfalso; apply Hop; rewrite E; repeat (first [left; reflexivity | right])];
    unfold_ops; read_facts; split_ifs_eq; try contradiction;
    rewrite ?update_flags_eq; state_simpl;
    rewrite ?upd_other by (assumption || (intros Heq; apply Hn; rewrite Heq; auto));
    congruence.
Qed.

(** X11. COND changes only with a register write that updates the flags:
    BR, JMP, JSR, the stores and every trap but GETC and IN leave it as it
    was. *)
Theorem flags_change_only_with_register_write s instr s1 s' :
  fetch s = (instr, s1) ->
  step s = Ok s' ->
  written_rd instr = None ->
  reg s' R_COND = reg s R_COND.
Proof.
  intros Hf Hs Hw.
  pose proof (step_case _ _ _ Hf) as Hc. rewrite Hs in Hc.
  rewrite <- (fetch_reg_other _ _ _ R_COND Hf) by discriminate.
  unfold written_rd in Hw. revert Hw.
  inversion Hc as [E|E|E|E|E|E|E|E|E|E|E|E|E|E|E]; subst s'; rewrite E; eval_eqb;
    cbn [orb andb]; try discriminate; intros Hw;
    unfold_ops; read_facts; split_ifs_eq;
    try (rewrite e in Hw; revert Hw; eval_eqb; cbn [orb]; discriminate);
    rewrite ?update_flags_eq; state_simpl;
    rewrite ?upd_other by discriminate; congruence.
Qed.

(** X12. The running flag is cleared by TRAP HALT and by nothing else:
    after any other instruction it is as it was. *)
Theorem running_cleared_only_by_halt s instr s1 s' :
  fetch s = (instr, s1) ->
  step s = Ok s' ->
  running s' = if is_halt instr then false else running s.
Proof.
  intros Hf Hs.
  pose proof (step_case _ _ _ Hf) as Hc. rewrite Hs in Hc.
  rewrite <- (fetch_running _ _ _ Hf).
  unfold is_halt.
  inversion Hc as [E|E|E|E|E|E|E|E|E|E|E|E|E|E|E]; subst s'; rewrite E; eval_eqb;
    cbn [andb];
    unfold_ops; read_facts; split_ifs_eq;
    try solve [exfalso; congruence];
    try solve [exfalso;
               match goal with
               | e1 : ?x = _, e2 : ?x = _ |- _ => rewrite e1 in e2; discriminate e2
               end];
    rewrite ?update_flags_eq; state_simpl; congruence.
Qed.

End Frames.

Lemma to_uchar_to_char (z : Z) : to_uchar (to_char z) = z mod 256.
Proof.
  unfold to_uchar, to_char. rewrite Zminus_mod_idemp_l. f_equal. lia.
Qed.

Lemma to_char_zero (z : Z) : (to_char z =? 0) = (z mod 256 =? 0).
Proof.
  pose proof (to_uchar_to_char z) as Hu. unfold to_uchar in Hu.
  assert (Hr : -128 <= to_char z < 128).
  { unfold to_char. pose proof (Z.mod_pos_bound (z + 128) 256 ltac:(lia)). lia. }
  destruct (Z.eqb_spec (to_char z) 0) as [He | Hne];
    destruct (Z.eqb_spec (z mod 256) 0) as [He' | Hne']; try reflexivity; exfalso.
  - rewrite He in Hu. cbn in Hu. congruence.
  - rewrite He' in Hu. apply Hne.
    destruct (Z.lt_ge_cases (to_char z) 0).
    + rewrite <- (Z.mod_unique (to_char z) 256 (-1) (to_char z + 256)) in Hu; lia.
    + rewrite Z.mod_small in Hu; lia.
Qed.

Section TrapRoutines.

Context {W : Type} {HostW : Host W}.

Implicit Types s : state W.

Lemma put_bytes_app (l1 l2 : list Z) (w : W) :
  put_bytes (l1 ++ l2) w = put_bytes l2 (put_bytes l1 w).
Proof. unfold put_bytes. apply fold_left_app. Qed.

Lemma low_bytes_S mem a n :
  low_bytes mem a (S n) = mem a mod 256 :: low_bytes mem (a + 1) n.
Proof.
  unfold low_bytes. cbn [seq map]. rewrite Z.add_0_r. f_equal.
  rewrite <- seq_shift, map_map. apply map_ext. intros k. f_equal. f_equal. lia.
Qed.

Lemma packed_bytes_S mem a n :
  packed_bytes mem a (S n) =
  (mem a mod 256 :: (if mem a / 256 mod 256 =? 0 then [] else [mem a / 256 mod 256]))
  ++ packed_bytes mem (a + 1) n.
Proof.
  unfold packed_bytes. cbn [seq flat_map]. rewrite Z.add_0_r. f_equal.
  rewrite <- seq_shift, flat_map_concat_map, map_map, flat_map_concat_map.
  f_equal. apply map_ext. intros k.
  replace (a + Z.of_nat (S k)) with (a + 1 + Z.of_nat k) by lia. reflexivity.
Qed.

Lemma puts_loop_spec n :
  forall fuel mem a w,
    (n < fuel)%nat ->
    (forall k, (k < n)%nat -> mem (a + Z.of_nat k) <> 0) ->
    mem (a + Z.of_nat n) = 0 ->
    puts_loop fuel mem a w = put_bytes (low_bytes mem a n) w.
Proof.
  induction n as [|n IH]; intros fuel mem a w Hfuel Hnz Hz;
    destruct fuel as [|fuel]; try lia; cbn [puts_loop].
  - rewrite Z.add_0_r in Hz. now rewrite Hz.
  - assert (H0 : mem a <> 0) by (specialize (Hnz 0%nat); rewrite Z.add_0_r in Hnz; apply Hnz; lia).
    apply Z.eqb_neq in H0. rewrite H0, low_bytes_S, to_uchar_to_char.
    cbn [put_bytes fold_left]. apply IH; [lia | |].
    + intros k Hk. replace (a + 1 + Z.of_nat k) with (a + Z.of_nat (S k)) by lia.
      apply Hnz. lia.
    + replace (a + 1 + Z.of_nat n) with (a + Z.of_nat (S n)) by lia. exact Hz.
Qed.

Lemma putsp_loop_spec n :
  forall fuel mem a w,
    (n < fuel)%nat ->
    (forall k, (k < n)%nat -> mem (a + Z.of_nat k) <> 0) ->
    mem (a + Z.of_nat n) = 0 ->
    putsp_loop fuel mem a w = put_bytes (packed_bytes mem a n) w.
Proof.
  induction n as [|n IH]; intros fuel mem a w Hfuel Hnz Hz;
    destruct fuel as [|fuel]; try lia; cbn [putsp_loop].
  - rewrite Z.add_0_r in Hz. now rewrite Hz.
  - assert (H0 : mem a <> 0) by (specialize (Hnz 0%nat); rewrite Z.add_0_r in Hnz; apply Hnz; lia).
    apply Z.eqb_neq in H0. rewrite H0, packed_bytes_S. cbv zeta.
    rewrite !to_uchar_to_char, to_char_zero.
    assert (Hlow : Z.land (mem a) 0xFF mod 256 = mem a mod 256).
    { change 0xFF with (Z.ones 8). rewrite Z.land_ones by lia.
      change (2 ^ 8) with 256. apply Z.mod_mod. lia. }
    assert (Hhigh : Z.shiftr (mem a) 8 = mem a / 256)
      by (rewrite Z.shiftr_div_pow2 by lia; reflexivity).
    rewrite Hlow, Hhigh.
    rewrite put_bytes_app.
    rewrite <- IH with (fuel := fuel); [| lia | |].
    + destruct (mem a / 256 mod 256 =? 0); reflexivity.
    + intros k Hk. replace (a + 1 + Z.of_nat k) with (a + Z.of_nat (S k)) by lia.
      apply Hnz. lia.
    + replace (a + 1 + Z.of_nat n) with (a + Z.of_nat (S n)) by lia. exact Hz.
Qed.

End TrapRoutines.

Section TrapSteps.

Context {W : Type} {HostW : Host W}.

Implicit Types s : state W.

(** The state in which a trap routine starts: the fetch was a plain read
    and R7 holds the incremented PC. *)
Lemma step_trap s instr s1 :
  fetch s = (instr, s1) -> opcode instr = OP_TRAP ->
  step s = Ok (op_trap instr s1) /\
  memory s1 = memory s /\ world s1 = world s /\
  reg s1 R_R0 = reg s R_R0 /\ running s1 = running s.
Proof.
  intros Hf E. destruct (fetch_trap_plain _ _ _ Hf E) as [Hm Hw].
  split; [step_at Hf E; reflexivity|].
  repeat split; auto.
  - apply (fetch_reg_other _ _ _ _ Hf). discriminate.
  - apply (fetch_running _ _ _ Hf).
Qed.

(** X13. TRAP HALT in the running loop writes HALT and a newline,
    flushes, and ends the loop: the program returns with status 0, whatever
    fuel is left, and memory is as it was. *)
Theorem halt_ends_the_loop s instr s1 :
  fetch s = (instr, s1) ->
  opcode instr = OP_TRAP ->
  Z.land instr 0xFF = TRAP_HALT ->
  running s = true ->
  exists s',
    step s = Ok s' /\
    (forall fuel, main_loop (S fuel) s = Some (Exited 0, s')) /\
    process_status (Exited 0) = 0 /\
    world s' = fflush (putc 10 (put_string "HALT" (world s))) /\
    memory s' = memory s.
Proof.
  intros Hf E Hcode Hrun.
  destruct (step_trap _ _ _ Hf E) as (Hs & Hm & Hw & _ & _).
  assert (Hop : op_trap instr s1 =
                set_running false
                  (set_world (fflush (putc 10 (put_string "HALT" (world s1))))
                     (set_reg R_R7 (reg s1 R_PC) s1))).
  { unfold op_trap. rewrite Hcode. eval_eqb. reflexivity. }
  exists (op_trap instr s1). split; [exact Hs|]. split; [|split; [reflexivity|]].
  - intros fuel. cbn [main_loop]. rewrite Hrun, Hs, Hop.
    destruct fuel; reflexivity.
  - rewrite Hop. state_simpl. now rewrite Hw, Hm.
Qed.

(** X14. TRAP OUT writes the low byte of R0 and flushes; R0 and memory
    stay as they were. *)
Theorem out_writes_low_byte s instr s1 :
  fetch s = (instr, s1) ->
  opcode instr = OP_TRAP ->
  Z.land instr 0xFF = TRAP_OUT ->
  exists s',
    step s = Ok s' /\
    world s' = fflush (putc (reg s R_R0 mod 256) (world s)) /\
    memory s' = memory s /\
    reg s' R_R0 = reg s R_R0.
Proof.
  intros Hf E Hcode.
  destruct (step_trap _ _ _ Hf E) as (Hs & Hm & Hw & H0 & _).
  exists (op_trap instr s1). split; [exact Hs|].
  unfold op_trap. rewrite Hcode. eval_eqb. state_simpl.
  rewrite !upd_other by discriminate.
  now rewrite to_uchar_to_char, Hw, Hm, H0.
Qed.

(** X15. TRAP GETC takes one character from the host and puts it into R0
    as a 16-bit word: the byte itself for a byte, 0xFFFF at end of input;
    nothing is written to the output. *)
Theorem getc_reads_one_character s instr s1 c w :
  fetch s = (instr, s1) ->
  opcode instr = OP_TRAP ->
  Z.land instr 0xFF = TRAP_GETC ->
  getchar (world s) = (c, w) ->
  exists s',
    step s = Ok s' /\
    reg s' R_R0 = u16 c /\
    (0 <= c < 256 -> reg s' R_R0 = c) /\
    (c = -1 -> reg s' R_R0 = 0xFFFF) /\
    world s' = w /\
    memory s' = memory s.
Proof.
  intros Hf E Hcode Hg.
  destruct (step_trap _ _ _ Hf E) as (Hs & Hm & Hw & _ & _).
  exists (op_trap instr s1). split; [exact Hs|].
  assert (Hop : op_trap instr s1 =
                update_flags R_R0
                  (set_reg R_R0 c (set_world w (set_reg R_R7 (reg s1 R_PC) s1)))).
  { unfold op_trap. rewrite Hcode. eval_eqb. state_simpl. now rewrite Hw, Hg. }
  assert (H0 : reg (op_trap instr s1) R_R0 = u16 c).
  { rewrite Hop, update_flags_reg by discriminate. apply reg_set_reg_same. }
  split; [exact H0|]. split; [|split; [|split]].
  - intros Hc. rewrite H0. apply u16_small. lia.
  - intros ->. rewrite H0. reflexivity.
  - rewrite Hop, update_flags_world. reflexivity.
  - rewrite Hop, update_flags_memory. exact Hm.
Qed.

(** X16. TRAP IN writes its prompt, takes one character from the host,
    writes it back and flushes; for a 7-bit character R0 receives it. *)
Theorem in_prompts_reads_and_echoes s instr s1 c w :
  fetch s = (instr, s1) ->
  opcode instr = OP_TRAP ->
  Z.land instr 0xFF = TRAP_IN ->
  getchar (put_string "Enter a character: " (world s)) = (c, w) ->
  0 <= c < 128 ->
  exists s',
    step s = Ok s' /\
    reg s' R_R0 = c /\
    world s' = fflush (putc c w) /\
    memory s' = memory s.
Proof.
  intros Hf E Hcode Hg Hc.
  destruct (step_trap _ _ _ Hf E) as (Hs & Hm & Hw & _ & _).
  exists (op_trap instr s1). split; [exact Hs|].
  assert (Hch : to_char c = c).
  { unfold to_char. rewrite Z.mod_small by lia. lia. }
  assert (Hop : op_trap instr s1 =
                update_flags R_R0
                  (set_reg R_R0 c
                     (set_world (fflush (putc c w)) (set_reg R_R7 (reg s1 R_PC) s1)))).
  { unfold op_trap. rewrite Hcode. eval_eqb. state_simpl. rewrite Hw, Hg, Hch.
    unfold to_uchar. now rewrite Z.mod_small by lia. }
  split; [|split].
  - rewrite Hop, update_flags_reg by discriminate.
    rewrite reg_set_reg_same. apply u16_small. lia.
  - rewrite Hop, update_flags_world. reflexivity.
  - rewrite Hop, update_flags_memory. exact Hm.
Qed.

(** X17. TRAP PUTS writes the low byte of each word from the address in
    R0 up to, and without, the first zero word, then flushes; memory is as
    it was. *)
Theorem puts_writes_string s instr s1 (n : nat) :
  fetch s = (instr, s1) ->
  opcode instr = OP_TRAP ->
  Z.land instr 0xFF = TRAP_PUTS ->
  reg s R_R0 + Z.of_nat n < MEMORY_MAX ->
  (forall k, (k < n)%nat -> memory s (reg s R_R0 + Z.of_nat k) <> 0) ->
  memory s (reg s R_R0 + Z.of_nat n) = 0 ->
  exists s',
    step s = Ok s' /\
    world s' = fflush (put_bytes (low_bytes (memory s) (reg s R_R0) n) (world s)) /\
    memory s' = memory s.
Proof.
  intros Hf E Hcode Hfit Hnz Hz.
  destruct (step_trap _ _ _ Hf E) as (Hs & Hm & Hw & H0 & _).
  exists (op_trap instr s1). split; [exact Hs|].
  unfold op_trap. rewrite Hcode. eval_eqb. state_simpl.
  rewrite !upd_other by discriminate. rewrite H0, Hm, Hw.
  split; [|reflexivity]. f_equal.
  apply puts_loop_spec; [lia | assumption | assumption].
Qed.

(** X18. TRAP PUTSP writes, for each word from the address in R0 up to
    the first zero word, its low byte and then its high byte unless that
    is zero, then flushes; memory is as it was. *)
Theorem putsp_writes_packed_string s instr s1 (n : nat) :
  fetch s = (instr, s1) ->
  opcode instr = OP_TRAP ->
  Z.land instr 0xFF = TRAP_PUTSP ->
  reg s R_R0 + Z.of_nat n < MEMORY_MAX ->
  (forall k, (k < n)%nat -> memory s (reg s R_R0 + Z.of_nat k) <> 0) ->
  memory s (reg s R_R0 + Z.of_nat n) = 0 ->
  exists s',
    step s = Ok s' /\
    world s' = fflush (put_bytes (packed_bytes (memory s) (reg s R_R0) n) (world s)) /\
    memory s' = memory s.
Proof.
  intros Hf E Hcode Hfit Hnz Hz.
  destruct (step_trap _ _ _ Hf E) as (Hs & Hm & Hw & H0 & _).
  exists (op_trap instr s1). split; [exact Hs|].
  unfold op_trap. rewrite Hcode. eval_eqb. state_simpl.
  rewrite !upd_other by discriminate. rewrite H0, Hm, Hw.
  split; [|reflexivity]. f_equal.
  apply putsp_loop_spec; [lia | assumption | assumption].
Qed.

(** X19. Every read of 0xFE00 with a key pending takes a character from
    the host: after two such reads 0xFE02 holds the second character, and
    the first one is gone. *)
Theorem second_poll_overwrites_key s w1 c1 w2 w3 c2 w4 :
  check_key (world s) = (true, w1) -> getchar w1 = (c1, w2) ->
  check_key w2 = (true, w3) -> getchar w3 = (c2, w4) ->
  let s1 := snd (mem_read MR_KBSR s) in
  let s2 := snd (mem_read MR_KBSR s1) in
  memory s1 MR_KBDR = u16 c1 /\
  memory s2 MR_KBDR = u16 c2 /\
  world s2 = w4.
Proof.
  intros Hk1 Hg1 Hk2 Hg2 s1 s2.
  assert (Hs1 : s1 = set_mem MR_KBDR c1
                       (set_world w2 (set_mem MR_KBSR (Z.shiftl 1 15) (set_world w1 s)))).
  { subst s1. unfold mem_read. change (u16 MR_KBSR =? MR_KBSR) with true.
    cbv iota. rewrite Hk1. state_simpl. now rewrite Hg1. }
  assert (Hw1 : world s1 = w2) by (rewrite Hs1; reflexivity).
  assert (Hs2 : s2 = set_mem MR_KBDR c2
                       (set_world w4 (set_mem MR_KBSR (Z.shiftl 1 15) (set_world w3 s1)))).
  { subst s2. unfold mem_read. change (u16 MR_KBSR =? MR_KBSR) with true.
    cbv iota. rewrite Hw1, Hk2. state_simpl. now rewrite Hg2. }
  repeat split.
  - rewrite Hs1. state_simpl. apply upd_same.
  - rewrite Hs2. state_simpl. apply upd_same.
  - rewrite Hs2. reflexivity.
Qed.

End TrapSteps.

Section Invariants.

Context {W : Type} {HostW : Host W}.

Implicit Types s : state W.

Lemma execute_wf_reg instr s s' :
  wf_memory (reg s) -> execute instr s = Ok s' -> wf_memory (reg s').
Proof.
  intros Hwf Hx. pose proof (execute_case instr s) as Hc. rewrite Hx in Hc.
  inversion Hc; subst s'; unfold_ops; read_facts; split_ifs;
    rewrite ?update_flags_eq; state_simpl;
    repeat match goal with H : reg _ = reg _ |- _ => rewrite H; clear H end;
    repeat apply upd_wf; assumption.
Qed.

Lemma step_wf_reg s s' :
  wf_memory (reg s) -> step s = Ok s' -> wf_memory (reg s').
Proof.
  unfold step. intros Hwf Hs. destruct (fetch s) as [instr s1] eqn:Hf.
  apply (execute_wf_reg instr s1); [|exact Hs].
  intros r. rewrite (fetch_reg _ _ _ r Hf).
  destruct (r =? R_PC); [apply u16_range | apply Hwf].
Qed.

(** X21. In every state of the loop all registers and all memory words
    are 16-bit values. *)
Theorem reachable_words_are_16_bit s :
  reachable s ->
  (forall r, 0 <= reg s r < 65536) /\ (forall a, 0 <= memory s a < 65536).
Proof.
  intros Hr. split; [|exact (reachable_wf s Hr)].
  induction Hr as [mem w Hwf | s s' _ IH _ Hs].
  - intros r. unfold reset. state_simpl. unfold upd.
    destruct (r =? R_PC); [apply u16_range|].
    destruct (r =? R_COND); [apply u16_range | lia].
  - exact (step_wf_reg s s' IH Hs).
Qed.

End Invariants.

(** ** Loading *)

Section Loading.

Variable fread_partial : Z -> Z -> Z.

(** X22. For an image with an origin other than 0, a payload of whole
    words and room for all of them below 2^16, the loader stores the
    big-endian words from the origin on and leaves every other word of
    memory as it was. *)
Theorem read_image_file_exact (b0 b1 : Z) (payload : list Z) (mem : Z -> Z) :
  is_byte b0 -> is_byte b1 -> Forall is_byte payload ->
  b0 * 256 + b1 <> 0 ->
  Nat.even (List.length payload) = true ->
  b0 * 256 + b1 + Z.of_nat (List.length (image_words payload)) <= 65536 ->
  let origin := b0 * 256 + b1 in
  let n := Z.of_nat (List.length (image_words payload)) in
  exists mem',
    read_image_file fread_partial (b0 :: b1 :: payload) mem = Some mem' /\
    forall a,
      mem' a =
      if (origin <=? a) && (a <? origin + n)
      then nth (Z.to_nat (a - origin)) (image_words payload) 0
      else mem a.
Proof.
  intros H0 H1 Hp Hne Heven Hfit origin n.
  destruct (read_image_file_loads fread_partial b0 b1 payload mem H0 H1 Hp Hne)
    as (mem' & Hread & Hget & Hframe & Hlast).
  fold origin in Hget, Hframe, Hlast, Hfit. fold n in Hfit.
  replace (Z.min (Z.of_nat (List.length (image_words payload))) (65536 - origin))
    with n in * by (subst n; lia).
  exists mem'. split; [exact Hread|]. intros a.
  destruct (Z.leb_spec origin a); cbn [andb].
  - destruct (Z.ltb_spec a (origin + n)).
    + replace a with (origin + (a - origin)) at 1 by lia. apply Hget. lia.
    + destruct (Z.eq_dec a (origin + n)) as [-> | Hne'].
      * apply Hlast. left. exact Heven.
      * apply Hframe. lia.
  - apply Hframe. lia.
Qed.

(** X23. For an image with more words than there are addresses from its
    origin (other than 0) to 0xFFFF, the loader fills memory up to 0xFFFF
    with the first words and stops: nothing wraps around to the addresses
    below the origin. *)
Theorem read_image_file_clamps (b0 b1 : Z) (payload : list Z) (mem : Z -> Z) :
  is_byte b0 -> is_byte b1 -> Forall is_byte payload ->
  b0 * 256 + b1 <> 0 ->
  65536 < b0 * 256 + b1 + Z.of_nat (List.length (image_words payload)) ->
  let origin := b0 * 256 + b1 in
  exists mem',
    read_image_file fread_partial (b0 :: b1 :: payload) mem = Some mem' /\
    (forall a, origin <= a < 65536 ->
       mem' a = nth (Z.to_nat (a - origin)) (image_words payload) 0) /\
    (forall a, a < origin \/ 65536 <= a -> mem' a = mem a).
Proof.
  intros H0 H1 Hp Hne Hbig origin.
  destruct (read_image_file_loads fread_partial b0 b1 payload mem H0 H1 Hp Hne)
    as (mem' & Hread & Hget & Hframe & Hlast).
  fold origin in Hget, Hframe, Hlast, Hbig.
  replace (Z.min (Z.of_nat (List.length (image_words payload))) (65536 - origin))
    with (65536 - origin) in * by lia.
  exists mem'. split; [exact Hread|]. split.
  - intros a Ha. replace a with (origin + (a - origin)) at 1 by lia. apply Hget. lia.
  - intros a Ha. destruct (Z.eq_dec a 65536) as [-> | Hne'].
    + replace 65536 with (origin + (65536 - origin)) by lia. apply Hlast. now right.
    + apply Hframe. lia.
Qed.

End Loading.

Section LoadOrder.

Variable fread_partial : Z -> Z -> Z.

Lemma load_well_formed (file : list Z) (mem : Z -> Z) :
  well_formed_image file ->
  exists mem',
    read_image_file fread_partial file mem = Some mem' /\
    forall a, mem' a = if covers file a then image_word file a else mem a.
Proof.
  destruct file as [|b0 [|b1 payload]]; cbn [well_formed_image]; try tauto.
  intros (H0 & H1 & Hp & Hne & Heven & Hfit).
  destruct (read_image_file_loads fread_partial b0 b1 payload mem H0 H1 Hp Hne)
    as (mem' & Hread & Hget & Hframe & Hlast).
  rewrite Z.min_l in Hget, Hframe, Hlast by lia.
  exists mem'. split; [exact Hread|]. intros a.
  unfold covers, image_word. cbn [image_origin image_payload].
  destruct (Z.leb_spec (b0 * 256 + b1) a); cbn [andb].
  - destruct (Z.ltb_spec a (b0 * 256 + b1 + Z.of_nat (List.length (image_words payload)))).
    + replace a with (b0 * 256 + b1 + (a - (b0 * 256 + b1))) at 1 by lia.
      apply Hget. lia.
    + destruct (Z.eq_dec a (b0 * 256 + b1 + Z.of_nat (List.length (image_words payload))))
        as [-> | Hne'].
      * apply Hlast. left. exact Heven.
      * apply Hframe. lia.
  - apply Hframe. lia.
Qed.

(** X24. Of two well-formed images read one after the other, the second
    one wins wherever both have a word; where the two share no address,
    reading them in the other order gives the same memory. *)
Theorem later_image_wins (fa fb : list Z) (mem : Z -> Z) :
  well_formed_image fa -> well_formed_image fb ->
  exists m1 m2,
    read_image_file fread_partial fa mem = Some m1 /\
    read_image_file fread_partial fb m1 = Some m2 /\
    (forall a,
       m2 a = if covers fb a then image_word fb a
              else if covers fa a then image_word fa a
              else mem a) /\
    ((forall a, covers fa a && covers fb a = false) ->
     exists m1' m2',
       read_image_file fread_partial fb mem = Some m1' /\
       read_image_file fread_partial fa m1' = Some m2' /\
       forall a, m2' a = m2 a).
Proof.
  intros Ha Hb.
  destruct (load_well_formed fa mem Ha) as (m1 & Hr1 & Hm1).
  destruct (load_well_formed fb m1 Hb) as (m2 & Hr2 & Hm2).
  exists m1, m2. split; [exact Hr1|]. split; [exact Hr2|]. split.
  - intros a. now rewrite Hm2, Hm1.
  - intros Hdis.
    destruct (load_well_formed fb mem Hb) as (m1' & Hr1' & Hm1').
    destruct (load_well_formed fa m1' Ha) as (m2' & Hr2' & Hm2').
    exists m1', m2'. split; [exact Hr1'|]. split; [exact Hr2'|].
    intros a. rewrite Hm2', Hm1', Hm2, Hm1. specialize (Hdis a).
    destruct (covers fa a), (covers fb a); try reflexivity. discriminate Hdis.
Qed.

End LoadOrder.

Section TerminalFacts.

Variables ICANON ECHO : Z.

(** X25. [disable_input_buffering] clears the ICANON and ECHO bits of the
    local modes, keeps every other bit and field, and saves the settings it
    found; [restore_input_buffering] after it puts those settings back. *)
Theorem disable_clears_icanon_and_echo (t : terminal) :
  let t' := disable_input_buffering ICANON ECHO t in
  (forall i, 0 <= i ->
     Z.testbit (c_lflag (tio t')) i =
     Z.testbit (c_lflag (tio t)) i
     && negb (Z.testbit ICANON i) && negb (Z.testbit ECHO i)) /\
  c_other (tio t') = c_other (tio t) /\
  original_tio t' = tio t /\
  tio (restore_input_buffering t') = tio t.
Proof.
  cbn. repeat split. intros i Hi.
  rewrite !Z.land_spec, !Z.lnot_spec by assumption. apply andb_assoc.
Qed.

Lemma disabled_bits_clear (t : terminal) :
  Z.land (c_lflag (tio (disable_input_buffering ICANON ECHO t))) ICANON = 0 /\
  Z.land (c_lflag (tio (disable_input_buffering ICANON ECHO t))) ECHO = 0.
Proof.
  cbn. split; apply Z.bits_inj'; intros i Hi;
    rewrite !Z.land_spec, !Z.lnot_spec, Z.bits_0 by assumption.
  - destruct (Z.testbit ICANON i); cbn; now rewrite ?andb_false_r.
  - destruct (Z.testbit ECHO i); cbn; now rewrite ?andb_false_r.
Qed.

Context {W : Type} {HostW : Host W}.

Variable fread_partial : Z -> Z -> Z.
Variable files : string -> option (list Z).

Lemma load_all_app (pre rest : list string) :
  forall mem,
    load_all fread_partial files (pre ++ rest) mem =
    match load_all fread_partial files pre mem with
    | inl mem' => load_all fread_partial files rest mem'
    | inr e => inr e
    end.
Proof.
  induction pre as [|p pre IH]; intros mem; cbn [load_all app]; [reflexivity|].
  destruct (read_image fread_partial files p mem); auto.
Qed.

(** X26. Without an image argument [main] writes the usage line and exits
    with status 2; at the first path that cannot be opened it writes
    the failure line naming that path and exits with status 1.  In both
    cases the terminal is not touched and no instruction runs. *)
Theorem main_rejects_bad_arguments (fuel : nat) (t : terminal) (w : W) :
  main ICANON ECHO fread_partial files [] fuel t w =
    Ends 2 t (fflush (put_string ("[Usage]: lc3-vm [image-file1] ..." ++ newline) w)) /\
  forall pre path post mem,
    load_all fread_partial files pre (fun _ => 0) = inl mem ->
    files path = None ->
    main ICANON ECHO fread_partial files (pre ++ path :: post) fuel t w =
      Ends 1 t (fflush (put_string ("Failed to load image: " ++ path ++ newline) w)).
Proof.
  split; [reflexivity|].
  intros pre path post mem Hpre Hnone. unfold main.
  replace (Z.of_nat (S (List.length (pre ++ path :: post))) <? 2) with false.
  - rewrite load_all_app, Hpre. cbn [load_all]. unfold read_image.
    now rewrite Hnone.
  - symmetry. apply Z.ltb_ge. rewrite length_app. cbn [List.length]. lia.
Qed.

(** X27. When the loop ends by HALT, [main] returns with the terminal
    settings it found; when the loop ends in [abort()], the terminal is left
    with ICANON and ECHO cleared. *)
Theorem main_leaves_terminal (path : string) (paths : list string) (mem : Z -> Z)
    (fuel : nat) (t : terminal) (w : W) :
  load_all fread_partial files (path :: paths) (fun _ => 0) = inl mem ->
  (forall status s,
     main_loop fuel (reset mem w) = Some (Exited status, s) ->
     exists t',
       main ICANON ECHO fread_partial files (path :: paths) fuel t w = Ends status t' (fflush (world s)) /\
       tio t' = tio t) /\
  (forall sig s,
     main_loop fuel (reset mem w) = Some (Signaled sig, s) ->
     exists t',
       main ICANON ECHO fread_partial files (path :: paths) fuel t w = Killed sig t' /\
       Z.land (c_lflag (tio t')) ICANON = 0 /\
       Z.land (c_lflag (tio t')) ECHO = 0).
Proof.
  intros Hload.
  assert (Hargs : (Z.of_nat (S (List.length (path :: paths))) <? 2) = false)
    by (apply Z.ltb_ge; cbn [List.length]; lia).
  split.
  - intros status s Hrun. eexists. split.
    + unfold main. rewrite Hargs, Hload. cbv zeta. rewrite Hrun. reflexivity.
    + reflexivity.
  - intros sig s Hrun. eexists. split.
    + unfold main. rewrite Hargs, Hload. cbv zeta. rewrite Hrun. reflexivity.
    + apply disabled_bits_clear.
Qed.

End TerminalFacts.

(** ** Runs of the further properties *)

Lemma swap16_exchanges_bytes_witness :
  0 <= 0x1234 < 65536 /\
  swap16 0x1234 = 0x34 * 256 + 0x12 /\
  0 <= swap16 0x1234 < 65536 /\
  swap16 (swap16 0x1234) = 0x1234.
Proof. split; [lia|]. apply (swap16_exchanges_bytes 0x1234). lia. Defined.

Lemma sign_extend_mod_witness :
  0 <= 0x1F < 65536 /\ 1 <= 5 <= 15 /\
  sign_extend 0x1F 5 mod 2 ^ 5 = 0x1F mod 2 ^ 5.
Proof. split; [lia|]. split; [lia|]. apply (sign_extend_mod 0x1F 5); lia. Defined.

Lemma sign_extend_replicates_witness :
  1 <= 5 <= 15 /\ 0 <= 0x1F < 2 ^ 5 /\ 0 <= 15 < 16 /\
  Z.testbit (sign_extend 0x1F 5) 15 = Z.testbit 0x1F 4.
Proof.
  split; [lia|]. split; [lia|]. split; [lia|].
  apply (sign_extend_replicates 0x1F 5 15); lia.
Defined.

(** ADD R2, R2, #-1 at reset. *)
Lemma add_adds_signed_immediate_witness :
  fetch (boot 0x14BF []) = (0x14BF, snd (fetch (boot 0x14BF []))) /\
  opcode 0x14BF = OP_ADD /\
  exists s',
    step (boot 0x14BF []) = Ok s' /\
    reg s' (bits_11_9 0x14BF) =
      u16 (reg (boot 0x14BF []) (bits_8_6 0x14BF) +
           if bit_5 0x14BF =? 0 then reg (boot 0x14BF []) (Z.land 0x14BF 0x7)
           else signed_field (Z.land 0x14BF 0x1F) 5) /\
    -16 <= signed_field (Z.land 0x14BF 0x1F) 5 <= 15.
Proof.
  split; [reflexivity|]. split; [reflexivity|].
  apply (add_adds_signed_immediate (boot 0x14BF []) 0x14BF (snd (fetch (boot 0x14BF []))));
    reflexivity.
Defined.

Lemma not_twice_restores_witness :
  fetch not_not_state = (0x993F, snd (fetch not_not_state)) /\
  opcode 0x993F = OP_NOT /\
  step not_not_state = Ok (op_not 0x993F (snd (fetch not_not_state))) /\
  fetch (op_not 0x993F (snd (fetch not_not_state))) =
    (0x993F, snd (fetch (op_not 0x993F (snd (fetch not_not_state))))) /\
  bits_8_6 0x993F = bits_11_9 0x993F /\
  exists s'',
    step (op_not 0x993F (snd (fetch not_not_state))) = Ok s'' /\
    reg s'' (bits_11_9 0x993F) = u16 (reg not_not_state (bits_8_6 0x993F)).
Proof.
  split; [reflexivity|]. split; [reflexivity|]. split; [reflexivity|].
  split; [reflexivity|]. split; [reflexivity|].
  apply (not_twice_restores not_not_state 0x993F (snd (fetch not_not_state))
           (op_not 0x993F (snd (fetch not_not_state))) 0x993F
           (snd (fetch (op_not 0x993F (snd (fetch not_not_state))))));
    reflexivity.
Defined.

Lemma jsr_then_ret_returns_witness :
  fetch call_state = (0x4801, snd (fetch call_state)) /\
  opcode 0x4801 = OP_JSR /\
  step call_state = Ok (op_jsr 0x4801 (snd (fetch call_state))) /\
  fetch (op_jsr 0x4801 (snd (fetch call_state))) =
    (0xC1C0, snd (fetch (op_jsr 0x4801 (snd (fetch call_state))))) /\
  opcode 0xC1C0 = OP_JMP /\
  bits_8_6 0xC1C0 = R_R7 /\
  reg (op_jsr 0x4801 (snd (fetch call_state))) R_R7 = u16 (reg call_state R_PC + 1) /\
  exists s'',
    step (op_jsr 0x4801 (snd (fetch call_state))) = Ok s'' /\
    reg s'' R_PC = u16 (reg call_state R_PC + 1).
Proof.
  split; [reflexivity|]. split; [reflexivity|]. split; [reflexivity|].
  split; [reflexivity|]. split; [reflexivity|]. split; [reflexivity|].
  apply (jsr_then_ret_returns call_state 0x4801 (snd (fetch call_state))
           (op_jsr 0x4801 (snd (fetch call_state))) 0xC1C0
           (snd (fetch (op_jsr 0x4801 (snd (fetch call_state))))));
    reflexivity.
Defined.

Lemma mem_write_then_read_witness :
  u16 0x4000 <> MR_KBSR /\
  mem_read 0x4000 (mem_write 0x4000 0x1234 (boot 0 [])) =
    (u16 0x1234, mem_write 0x4000 0x1234 (boot 0 [])).
Proof.
  split; [discriminate|].
  apply (proj1 (mem_write_then_read 0x4000 0x1234 (boot 0 []))). discriminate.
Defined.

Lemma st_then_ld_round_trip_witness :
  fetch st_ld_state = (0x3201, snd (fetch st_ld_state)) /\
  opcode 0x3201 = OP_ST /\
  step st_ld_state = Ok (op_st 0x3201 (snd (fetch st_ld_state))) /\
  fetch (op_st 0x3201 (snd (fetch st_ld_state))) =
    (0x2400, snd (fetch (op_st 0x3201 (snd (fetch st_ld_state))))) /\
  opcode 0x2400 = OP_LD /\
  exists s'',
    step (op_st 0x3201 (snd (fetch st_ld_state))) = Ok s'' /\
    reg s'' (bits_11_9 0x2400) = u16 (reg st_ld_state (bits_11_9 0x3201)).
Proof.
  split; [reflexivity|]. split; [reflexivity|]. split; [reflexivity|].
  split; [reflexivity|]. split; [reflexivity|].
  apply (st_then_ld_round_trip st_ld_state 0x3201 (snd (fetch st_ld_state))
           (op_st 0x3201 (snd (fetch st_ld_state))) 0x2400
           (snd (fetch (op_st 0x3201 (snd (fetch st_ld_state))))));
    try reflexivity. discriminate.
Defined.

Lemma sti_then_ldi_round_trip_witness :
  fetch sti_ldi_state = (0xB201, snd (fetch sti_ldi_state)) /\
  opcode 0xB201 = OP_STI /\
  step sti_ldi_state = Ok (op_sti 0xB201 (snd (fetch sti_ldi_state))) /\
  fetch (op_sti 0xB201 (snd (fetch sti_ldi_state))) =
    (0xA400, snd (fetch (op_sti 0xB201 (snd (fetch sti_ldi_state))))) /\
  opcode 0xA400 = OP_LDI /\
  exists s'',
    step (op_sti 0xB201 (snd (fetch sti_ldi_state))) = Ok s'' /\
    reg s'' (bits_11_9 0xA400) = u16 (reg sti_ldi_state (bits_11_9 0xB201)).
Proof.
  split; [reflexivity|]. split; [reflexivity|]. split; [reflexivity|].
  split; [reflexivity|]. split; [reflexivity|].
  apply (sti_then_ldi_round_trip sti_ldi_state 0xB201 (snd (fetch sti_ldi_state))
           (op_sti 0xB201 (snd (fetch sti_ldi_state))) 0xA400
           (snd (fetch (op_sti 0xB201 (snd (fetch sti_ldi_state))))));
    try reflexivity; discriminate.
Defined.

(** ADD R1, R1, #5 leaves R2 alone. *)
Lemma registers_change_only_as_assigned_witness :
  fetch (boot 0x1265 []) = (0x1265, snd (fetch (boot 0x1265 []))) /\
  step (boot 0x1265 []) = Ok (op_add 0x1265 (snd (fetch (boot 0x1265 [])))) /\
  0 <= R_R2 <= 7 /\
  ~ In R_R2 (assigned_registers 0x1265) /\
  reg (op_add 0x1265 (snd (fetch (boot 0x1265 [])))) R_R2 = reg (boot 0x1265 []) R_R2.
Proof.
  assert (Hn : ~ In R_R2 (assigned_registers 0x1265)).
  { intros [Hin | []]. discriminate Hin. }
  split; [reflexivity|]. split; [reflexivity|].
  split; [unfold R_R2; lia|]. split; [exact Hn|].
  apply (registers_change_only_as_assigned
           (boot 0x1265 []) 0x1265 (snd (fetch (boot 0x1265 []))));
    [reflexivity | reflexivity | unfold R_R2; lia | exact Hn].
Defined.

(** ST R1, #1 at reset. *)
Lemma flags_change_only_with_register_write_witness :
  fetch (boot 0x3201 []) = (0x3201, snd (fetch (boot 0x3201 []))) /\
  step (boot 0x3201 []) = Ok (op_st 0x3201 (snd (fetch (boot 0x3201 [])))) /\
  written_rd 0x3201 = None /\
  reg (op_st 0x3201 (snd (fetch (boot 0x3201 [])))) R_COND = reg (boot 0x3201 []) R_COND.
Proof.
  split; [reflexivity|]. split; [reflexivity|]. split; [reflexivity|].
  apply (flags_change_only_with_register_write
           (boot 0x3201 []) 0x3201 (snd (fetch (boot 0x3201 [])))); reflexivity.
Defined.

(** TRAP HALT at reset. *)
Lemma running_cleared_only_by_halt_witness :
  fetch (boot 0xF025 []) = (0xF025, snd (fetch (boot 0xF025 []))) /\
  step (boot 0xF025 []) = Ok (op_trap 0xF025 (snd (fetch (boot 0xF025 [])))) /\
  running (op_trap 0xF025 (snd (fetch (boot 0xF025 [])))) =
    if is_halt 0xF025 then false else running (boot 0xF025 []).
Proof.
  split; [reflexivity|]. split; [reflexivity|].
  apply (running_cleared_only_by_halt
           (boot 0xF025 []) 0xF025 (snd (fetch (boot 0xF025 [])))); reflexivity.
Defined.

Lemma halt_ends_the_loop_witness :
  fetch (boot 0xF025 []) = (0xF025, snd (fetch (boot 0xF025 []))) /\
  opcode 0xF025 = OP_TRAP /\
  Z.land 0xF025 0xFF = TRAP_HALT /\
  running (boot 0xF025 []) = true /\
  exists s',
    step (boot 0xF025 []) = Ok s' /\
    (forall fuel, main_loop (S fuel) (boot 0xF025 []) = Some (Exited 0, s')) /\
    process_status (Exited 0) = 0 /\
    world s' = fflush (putc 10 (put_string "HALT" (world (boot 0xF025 [])))) /\
    memory s' = memory (boot 0xF025 []).
Proof.
  split; [reflexivity|]. split; [reflexivity|]. split; [reflexivity|].
  split; [reflexivity|].
  apply (halt_ends_the_loop (boot 0xF025 []) 0xF025 (snd (fetch (boot 0xF025 []))));
    reflexivity.
Defined.

(** TRAP OUT with the letter A in R0. *)
Lemma out_writes_low_byte_witness :
  fetch (set_reg R_R0 0x41 (boot 0xF021 [])) =
    (0xF021, snd (fetch (set_reg R_R0 0x41 (boot 0xF021 [])))) /\
  opcode 0xF021 = OP_TRAP /\
  Z.land 0xF021 0xFF = TRAP_OUT /\
  exists s',
    step (set_reg R_R0 0x41 (boot 0xF021 [])) = Ok s' /\
    world s' =
      fflush (putc (reg (set_reg R_R0 0x41 (boot 0xF021 [])) R_R0 mod 256)
                (world (set_reg R_R0 0x41 (boot 0xF021 [])))) /\
    memory s' = memory (set_reg R_R0 0x41 (boot 0xF021 [])) /\
    reg s' R_R0 = reg (set_reg R_R0 0x41 (boot 0xF021 [])) R_R0.
Proof.
  split; [reflexivity|]. split; [reflexivity|]. split; [reflexivity|].
  apply (out_writes_low_byte (set_reg R_R0 0x41 (boot 0xF021 [])) 0xF021
           (snd (fetch (set_reg R_R0 0x41 (boot 0xF021 []))))); reflexivity.
Defined.

(** TRAP GETC with the key A typed. *)
Lemma getc_reads_one_character_witness :
  fetch (boot 0xF020 [0x41]) = (0xF020, snd (fetch (boot 0xF020 [0x41]))) /\
  opcode 0xF020 = OP_TRAP /\
  Z.land 0xF020 0xFF = TRAP_GETC /\
  getchar (world (boot 0xF020 [0x41])) = (0x41, mkConsole [] []) /\
  exists s',
    step (boot 0xF020 [0x41]) = Ok s' /\
    reg s' R_R0 = u16 0x41 /\
    (0 <= 0x41 < 256 -> reg s' R_R0 = 0x41) /\
    (0x41 = -1 -> reg s' R_R0 = 0xFFFF) /\
    world s' = mkConsole [] [] /\
    memory s' = memory (boot 0xF020 [0x41]).
Proof.
  split; [reflexivity|]. split; [reflexivity|]. split; [reflexivity|].
  split; [reflexivity|].
  apply (getc_reads_one_character (boot 0xF020 [0x41]) 0xF020
           (snd (fetch (boot 0xF020 [0x41]))) 0x41 (mkConsole [] [])); reflexivity.
Defined.

(** TRAP IN with the key A typed. *)
Lemma in_prompts_reads_and_echoes_witness :
  fetch (boot 0xF023 [0x41]) = (0xF023, snd (fetch (boot 0xF023 [0x41]))) /\
  opcode 0xF023 = OP_TRAP /\
  Z.land 0xF023 0xFF = TRAP_IN /\
  getchar (put_string "Enter a character: " (world (boot 0xF023 [0x41]))) =
    (0x41, mkConsole [] (bytes_of_string "Enter a character: ")) /\
  0 <= 0x41 < 128 /\
  exists s',
    step (boot 0xF023 [0x41]) = Ok s' /\
    reg s' R_R0 = 0x41 /\
    world s' = fflush (putc 0x41 (mkConsole [] (bytes_of_string "Enter a character: "))) /\
    memory s' = memory (boot 0xF023 [0x41]).
Proof.
  split; [reflexivity|]. split; [reflexivity|]. split; [reflexivity|].
  split; [reflexivity|]. split; [lia|].
  apply (in_prompts_reads_and_echoes (boot 0xF023 [0x41]) 0xF023
           (snd (fetch (boot 0xF023 [0x41]))) 0x41
           (mkConsole [] (bytes_of_string "Enter a character: ")));
    [reflexivity | reflexivity | reflexivity | reflexivity | lia].
Defined.

Lemma puts_writes_string_witness :
  fetch puts_state = (0xF022, snd (fetch puts_state)) /\
  opcode 0xF022 = OP_TRAP /\
  Z.land 0xF022 0xFF = TRAP_PUTS /\
  reg puts_state R_R0 + Z.of_nat 2 < MEMORY_MAX /\
  memory puts_state (reg puts_state R_R0 + 0) <> 0 /\
  memory puts_state (reg puts_state R_R0 + 1) <> 0 /\
  memory puts_state (reg puts_state R_R0 + Z.of_nat 2) = 0 /\
  exists s',
    step puts_state = Ok s' /\
    world s' =
      fflush (put_bytes (low_bytes (memory puts_state) (reg puts_state R_R0) 2)
                (world puts_state)) /\
    memory s' = memory puts_state.
Proof.
  split; [reflexivity|]. split; [reflexivity|]. split; [reflexivity|].
  split; [reflexivity|]. split; [discriminate|]. split; [discriminate|].
  split; [reflexivity|].
  apply (puts_writes_string puts_state 0xF022 (snd (fetch puts_state)) 2);
    [reflexivity | reflexivity | reflexivity | reflexivity | | reflexivity].
  intros k Hk. destruct k as [|[|k]]; [discriminate | discriminate | lia].
Defined.

Lemma putsp_writes_packed_string_witness :
  fetch putsp_state = (0xF024, snd (fetch putsp_state)) /\
  opcode 0xF024 = OP_TRAP /\
  Z.land 0xF024 0xFF = TRAP_PUTSP /\
  reg putsp_state R_R0 + Z.of_nat 2 < MEMORY_MAX /\
  memory putsp_state (reg putsp_state R_R0 + 0) <> 0 /\
  memory putsp_state (reg putsp_state R_R0 + 1) <> 0 /\
  memory putsp_state (reg putsp_state R_R0 + Z.of_nat 2) = 0 /\
  packed_bytes (memory putsp_state) (reg putsp_state R_R0) 2 = [0x48; 0x69; 0x21] /\
  exists s',
    step putsp_state = Ok s' /\
    world s' =
      fflush (put_bytes (packed_bytes (memory putsp_state) (reg putsp_state R_R0) 2)
                (world putsp_state)) /\
    memory s' = memory putsp_state.
Proof.
  split; [reflexivity|]. split; [reflexivity|]. split; [reflexivity|].
  split; [reflexivity|]. split; [discriminate|]. split; [discriminate|].
  split; [reflexivity|]. split; [reflexivity|].
  apply (putsp_writes_packed_string putsp_state 0xF024 (snd (fetch putsp_state)) 2);
    [reflexivity | reflexivity | reflexivity | reflexivity | | reflexivity].
  intros k Hk. destruct k as [|[|k]]; [discriminate | discriminate | lia].
Defined.

(** Two polls of the status register with the keys A and B typed. *)
Lemma second_poll_overwrites_key_witness :
  check_key (world (boot 0 [0x41; 0x42])) = (true, mkConsole [0x41; 0x42] []) /\
  getchar (mkConsole [0x41; 0x42] []) = (0x41, mkConsole [0x42] []) /\
  check_key (mkConsole [0x42] []) = (true, mkConsole [0x42] []) /\
  getchar (mkConsole [0x42] []) = (0x42, mkConsole [] []) /\
  memory (snd (mem_read MR_KBSR (boot 0 [0x41; 0x42]))) MR_KBDR = u16 0x41 /\
  memory (snd (mem_read MR_KBSR (snd (mem_read MR_KBSR (boot 0 [0x41; 0x42])))))
    MR_KBDR = u16 0x42 /\
  world (snd (mem_read MR_KBSR (snd (mem_read MR_KBSR (boot 0 [0x41; 0x42]))))) =
    mkConsole [] [].
Proof.
  split; [reflexivity|]. split; [reflexivity|]. split; [reflexivity|].
  split; [reflexivity|].
  apply (second_poll_overwrites_key (boot 0 [0x41; 0x42])
           (mkConsole [0x41; 0x42] []) 0x41 (mkConsole [0x42] [])
           (mkConsole [0x42] []) 0x42 (mkConsole [] [])); reflexivity.
Defined.

(** The state after ADD R1, R1, #5 from reset. *)
Lemma reachable_one_flag_witness :
  reachable (op_add 0x1265 (snd (fetch (boot 0x1265 [])))) /\
  one_flag (reg (op_add 0x1265 (snd (fetch (boot 0x1265 [])))) R_COND).
Proof.
  assert (Hr : reachable (op_add 0x1265 (snd (fetch (boot 0x1265 []))))).
  { apply (reachable_step (boot 0x1265 [])); [|reflexivity|reflexivity].
    unfold boot. apply reachable_reset.
    intros a. unfold upd. destruct (a =? PC_START); lia. }
  split; [exact Hr|]. apply (reachable_one_flag _ Hr).
Defined.

Lemma reachable_words_are_16_bit_witness :
  reachable (op_add 0x14BF (snd (fetch (boot 0x14BF [])))) /\
  (forall r, 0 <= reg (op_add 0x14BF (snd (fetch (boot 0x14BF [])))) r < 65536) /\
  (forall a, 0 <= memory (op_add 0x14BF (snd (fetch (boot 0x14BF [])))) a < 65536).
Proof.
  assert (Hr : reachable (op_add 0x14BF (snd (fetch (boot 0x14BF []))))).
  { apply (reachable_step (boot 0x14BF [])); [|reflexivity|reflexivity].
    unfold boot. apply reachable_reset.
    intros a. unfold upd. destruct (a =? PC_START); lia. }
  split; [exact Hr|]. apply (reachable_words_are_16_bit _ Hr).
Defined.

(** The image with origin 0x3000 and the words 0xF025, 0x1234. *)
Lemma read_image_file_exact_witness :
  is_byte 0x30 /\ is_byte 0x00 /\ Forall is_byte [0xF0; 0x25; 0x12; 0x34] /\
  0x30 * 256 + 0x00 <> 0 /\
  exists mem',
    read_image_file (fun old _ => old) [0x30; 0x00; 0xF0; 0x25; 0x12; 0x34] (fun _ => 0)
      = Some mem' /\
    forall a,
      mem' a =
      if (0x3000 <=? a) && (a <? 0x3000 + 2)
      then nth (Z.to_nat (a - 0x3000)) [0xF025; 0x1234] 0
      else 0.
Proof.
  assert (Hp : Forall is_byte [0xF0; 0x25; 0x12; 0x34])
    by (repeat constructor; unfold is_byte; lia).
  split; [unfold is_byte; lia|]. split; [unfold is_byte; lia|].
  split; [exact Hp|]. split; [discriminate|].
  apply (read_image_file_exact (fun old _ => old) 0x30 0x00
           [0xF0; 0x25; 0x12; 0x34] (fun _ => 0));
    [unfold is_byte; lia | unfold is_byte; lia | exact Hp | discriminate
    | reflexivity | discriminate].
Defined.

(** The image with origin 0xFFFF and two words: only the first fits. *)
Lemma read_image_file_clamps_witness :
  is_byte 0xFF /\ Forall is_byte [0x12; 0x34; 0x56; 0x78] /\
  65536 < 0xFF * 256 + 0xFF + Z.of_nat (List.length (image_words [0x12; 0x34; 0x56; 0x78])) /\
  exists mem',
    read_image_file (fun old _ => old) [0xFF; 0xFF; 0x12; 0x34; 0x56; 0x78] (fun _ => 0)
      = Some mem' /\
    (forall a, 0xFFFF <= a < 65536 ->
       mem' a = nth (Z.to_nat (a - 0xFFFF)) [0x1234; 0x5678] 0) /\
    (forall a, a < 0xFFFF \/ 65536 <= a -> mem' a = 0).
Proof.
  assert (Hp : Forall is_byte [0x12; 0x34; 0x56; 0x78])
    by (repeat constructor; unfold is_byte; lia).
  split; [unfold is_byte; lia|]. split; [exact Hp|]. split; [reflexivity|].
  apply (read_image_file_clamps (fun old _ => old) 0xFF 0xFF
           [0x12; 0x34; 0x56; 0x78] (fun _ => 0));
    [unfold is_byte; lia | unfold is_byte; lia | exact Hp | discriminate | reflexivity].
Defined.

(** Two images at 0x3000: one word, then two words over it. *)
Lemma later_image_wins_witness :
  well_formed_image [0x30; 0x00; 0xAA; 0xAA] /\
  well_formed_image [0x30; 0x00; 0xF0; 0x25; 0x12; 0x34] /\
  exists m1 m2,
    read_image_file (fun old _ => old) [0x30; 0x00; 0xAA; 0xAA] (fun _ => 0) = Some m1 /\
    read_image_file (fun old _ => old) [0x30; 0x00; 0xF0; 0x25; 0x12; 0x34] m1 = Some m2 /\
    (forall a,
       m2 a = if covers [0x30; 0x00; 0xF0; 0x25; 0x12; 0x34] a
              then image_word [0x30; 0x00; 0xF0; 0x25; 0x12; 0x34] a
              else if covers [0x30; 0x00; 0xAA; 0xAA] a
                   then image_word [0x30; 0x00; 0xAA; 0xAA] a
                   else 0).
Proof.
  assert (Ha : well_formed_image [0x30; 0x00; 0xAA; 0xAA]).
  { cbn [well_formed_image]. unfold is_byte.
    repeat split; try lia; try discriminate; repeat constructor; lia. }
  assert (Hb : well_formed_image [0x30; 0x00; 0xF0; 0x25; 0x12; 0x34]).
  { cbn [well_formed_image]. unfold is_byte.
    repeat split; try lia; try discriminate; repeat constructor; lia. }
  split; [exact Ha|]. split; [exact Hb|].
  destruct (later_image_wins (fun old _ => old) _ _ (fun _ => 0) Ha Hb)
    as (m1 & m2 & H1 & H2 & H3 & _).
  exists m1, m2. auto.
Defined.

(** ICANON = 2 and ECHO = 8 on a terminal with both set. *)
Lemma disable_clears_icanon_and_echo_witness :
  c_lflag (tio (disable_input_buffering 2 8 cooked_terminal)) = 0x8A31 /\
  (forall i, 0 <= i ->
     Z.testbit (c_lflag (tio (disable_input_buffering 2 8 cooked_terminal))) i =
     Z.testbit (c_lflag (tio cooked_terminal)) i
     && negb (Z.testbit 2 i) && negb (Z.testbit 8 i)) /\
  tio (restore_input_buffering (disable_input_buffering 2 8 cooked_terminal)) =
    tio cooked_terminal.
Proof.
  split; [reflexivity|].
  destruct (disable_clears_icanon_and_echo 2 8 cooked_terminal) as (Hb & _ & _ & Hr).
  split; [exact Hb | exact Hr].
Defined.

(** A run with a path that does not open after one that does. *)
Lemma main_rejects_bad_arguments_witness :
  load_all (fun old _ => old) one_image ["halt.obj"%string] (fun _ => 0) =
    inl halt_memory /\
  one_image "missing.obj" = None /\
  main 2 8 (fun old _ => old) one_image
    (["halt.obj"%string] ++ "missing.obj"%string :: []) 10 cooked_terminal (mkConsole [] []) =
    Ends 1 cooked_terminal
      (fflush (put_string ("Failed to load image: " ++ "missing.obj" ++ newline)
                 (mkConsole [] []))).
Proof.
  split; [reflexivity|]. split; [reflexivity|].
  apply (proj2 (main_rejects_bad_arguments 2 8 (fun old _ => old) one_image
                  10%nat cooked_terminal (mkConsole [] []))
           ["halt.obj"%string] "missing.obj"%string []
           halt_memory);
    reflexivity.
Defined.

(** A run of the image that halts at once. *)
Lemma main_leaves_terminal_witness :
  load_all (fun old _ => old) one_image ["halt.obj"%string] (fun _ => 0) =
    inl halt_memory /\
  exists s t',
    main_loop 5 (reset halt_memory
                   (mkConsole [] [])) = Some (Exited 0, s) /\
    main 2 8 (fun old _ => old) one_image ["halt.obj"%string] 5 cooked_terminal
      (mkConsole [] []) = Ends 0 t' (fflush (world s)) /\
    tio t' = tio cooked_terminal.
Proof.
  split; [reflexivity|].
  eexists.
  destruct (proj1 (main_leaves_terminal 2 8 (fun old _ => old) one_image
                     "halt.obj"%string []
                     halt_memory
                     5%nat cooked_terminal (mkConsole [] []) eq_refl)
             0 _ eq_refl) as (t' & Hm & Ht).
  exists t'. split; [reflexivity|]. split; [exact Hm | exact Ht].
Defined.
